(** * visualize_convergence.py: the log tailer, the statistics and chart
    computations, the key handling of the renderer and the start-up check.

  Energies are modelled as rationals ([Q]): every finite float is one, and the
  comparisons the program makes on them ([<] inside [min] and [max]) are exact.
  The operating system and the terminal are modelled by the answers they give
  to the calls of one loop iteration. *)

From Stdlib Require Import List String Ascii ZArith QArith Qminmax Bool Arith Lia.
From Stdlib Require Import DecimalString DecimalNat.
Import ListNotations.

Set Warnings "-register-all".

Open Scope string_scope.
Open Scope list_scope.
Open Scope Q_scope.

(** ** Python values and built-ins used by the program *)

Module Py.

(** Exceptions that the modelled statements can raise. *)
Inductive exn : Set :=
| SyntaxError
| ValueError
| KeyError
| TypeError
| IndexError
| AttributeError
| FileNotFoundError
| PermissionError.

(** What [ast.literal_eval] can build. *)
Inductive value : Type :=
| VNone
| VBool (b : bool)
| VNum (q : Q)
| VStr (s : string)
| VList (xs : list value)
| VDict (items : list (value * value)).

(** [line.startswith(p)] *)
Definition startswith (line p : string) : bool := String.prefix p line.

(** A dict key equals the string [k] only when it is that string. *)
Definition key_is (k : string) (key : value) : bool :=
  match key with
  | VStr s => String.eqb s k
  | _ => false
  end.

Fixpoint dict_get (k : string) (items : list (value * value)) : option value :=
  match items with
  | [] => None
  | (key, v) :: rest => if key_is k key then Some v else dict_get k rest
  end.

(** [d[k]] for a string [k]: only a dict can be indexed by a string. *)
Definition getitem (d : value) (k : string) : exn + value :=
  match d with
  | VDict items =>
      match dict_get k items with
      | Some v => inr v
      | None => inl KeyError
      end
  | _ => inl TypeError
  end.

(** [b < a] on numbers. *)
Definition lt (b a : Q) : bool := negb (Qle_bool a b).

(** [min(a, b)]: the first argument is kept unless the second is smaller. *)
Definition min2 (a b : Q) : Q := if lt b a then b else a.

(** [max(a, b)]: the first argument is kept unless the second is larger. *)
Definition max2 (a b : Q) : Q := if lt a b then b else a.

(** [min(log)] and [max(log)] on a list with first element [x]. *)
Definition min_of (x : Q) (xs : list Q) : Q := fold_left min2 xs x.
Definition max_of (x : Q) (xs : list Q) : Q := fold_left max2 xs x.

(** [str(i)] for a natural number. *)
Definition str (i : nat) : string := NilEmpty.string_of_uint (Nat.to_uint i).

(** [enumerate(l)] *)
Fixpoint enumerate_from {A : Type} (i : nat) (l : list A) : list (nat * A) :=
  match l with
  | [] => []
  | x :: rest => (i, x) :: enumerate_from (S i) rest
  end.

Definition enumerate {A : Type} (l : list A) : list (nat * A) :=
  enumerate_from 0 l.

(** *** A reader for the log format

    [literal_eval] itself is library code and stays a parameter of the tailer.
    To run the tailer on text, [literal_eval_frag] reads the fragment of Python
    literals that the log format uses: a dict display whose keys and values are
    decimal numerals or quoted strings without escapes.  On that fragment it
    answers what [ast.literal_eval] answers; on any other text it answers
    [SyntaxError], which is only claimed to agree with Python for text that is
    no Python expression at all. *)

Definition is_blank (c : ascii) : bool :=
  Ascii.eqb c " "%char || Ascii.eqb c "009"%char.

Definition is_digit (c : ascii) : bool :=
  (48 <=? nat_of_ascii c)%nat && (nat_of_ascii c <=? 57)%nat.

Fixpoint skip_blanks (s : string) : string :=
  match s with
  | String c rest => if is_blank c then skip_blanks rest else s
  | EmptyString => s
  end.

(** The longest prefix of digits, and what follows it. *)
Fixpoint span_digits (s : string) : string * string :=
  match s with
  | String c rest =>
      if is_digit c then
        let (ds, tl) := span_digits rest in (String c ds, tl)
      else (EmptyString, s)
  | EmptyString => (EmptyString, EmptyString)
  end.

Definition Z_of_digits (ds : string) : Z :=
  match NilEmpty.uint_of_string ds with
  | Some u => Z.of_uint u
  | None => 0%Z
  end.

(** An unsigned numeral [ddd] or [ddd.ddd]; Python refuses an integer numeral
    that starts with a superfluous zero. *)
Definition read_unsigned (s : string) : option (Q * string) :=
  let (int_part, rest) := span_digits s in
  match int_part with
  | EmptyString => None
  | _ =>
      match rest with
      | String "."%char rest' =>
          let (frac, rest'') := span_digits rest' in
          let scale := (10 ^ Z.of_nat (String.length frac))%Z in
          Some (Qred (Qmake (Z_of_digits int_part * scale + Z_of_digits frac)
                            (Z.to_pos scale)),
                rest'')
      | _ =>
          match int_part with
          | String "0"%char (String _ _) => None
          | _ => Some (inject_Z (Z_of_digits int_part), rest)
          end
      end
  end.

(** The characters up to the closing quote [q]; no escapes. *)
Fixpoint read_quoted (q : ascii) (s : string) : option (string * string) :=
  match s with
  | EmptyString => None
  | String c rest =>
      if Ascii.eqb c q then Some (EmptyString, rest)
      else if Ascii.eqb c "\"%char then None
      else
        match read_quoted q rest with
        | Some (body, tl) => Some (String c body, tl)
        | None => None
        end
  end.

Definition read_atom (s : string) : option (value * string) :=
  match s with
  | String c rest =>
      if Ascii.eqb c "'"%char || Ascii.eqb c "034"%char then
        match read_quoted c rest with
        | Some (body, tl) => Some (VStr body, tl)
        | None => None
        end
      else if Ascii.eqb c "-"%char then
        match read_unsigned rest with
        | Some (q, tl) => Some (VNum (Qopp q), tl)
        | None => None
        end
      else
        match read_unsigned s with
        | Some (q, tl) => Some (VNum q, tl)
        | None => None
        end
  | EmptyString => None
  end.

(** Equality of the keys of the fragment. *)
Definition key_eqb (a b : value) : bool :=
  match a, b with
  | VStr s, VStr s' => String.eqb s s'
  | VNum q, VNum q' => Qeq_bool q q'
  | _, _ => false
  end.

(** A later item with an equal key replaces the value of the earlier one. *)
Fixpoint dict_set (k v : value) (items : list (value * value)) : list (value * value) :=
  match items with
  | [] => [(k, v)]
  | (k', v') :: rest =>
      if key_eqb k' k then (k', v) :: rest else (k', v') :: dict_set k v rest
  end.

(** The items after the opening brace, up to the closing one. *)
Fixpoint read_items (fuel : nat) (s : string) (acc : list (value * value))
  : option (list (value * value) * string) :=
  match fuel with
  | O => None
  | S fuel' =>
      match skip_blanks s with
      | String "}"%char rest => Some (acc, rest)
      | s1 =>
          match read_atom s1 with
          | None => None
          | Some (k, s2) =>
              match skip_blanks s2 with
              | String ":"%char s3 =>
                  match read_atom (skip_blanks s3) with
                  | None => None
                  | Some (v, s4) =>
                      match skip_blanks s4 with
                      | String ","%char s5 => read_items fuel' s5 (dict_set k v acc)
                      | String "}"%char rest => Some (dict_set k v acc, rest)
                      | _ => None
                      end
                  end
              | _ => None
              end
          end
      end
  end.

(** Only blanks and one line end may follow the display. *)
Definition at_line_end (s : string) : bool :=
  match skip_blanks s with
  | EmptyString => true
  | String c EmptyString => Ascii.eqb c "010"%char
  | _ => false
  end.

Definition literal_eval_frag (line : string) : exn + value :=
  match skip_blanks line with
  | String "{"%char rest =>
      match read_items (S (String.length rest)) rest [] with
      | Some (items, tl) => if at_line_end tl then inr (VDict items) else inl SyntaxError
      | None => inl SyntaxError
      end
  | _ => inl SyntaxError
  end.

(** The line end and the double quote, to write log lines. *)
Definition nl : string := String "010"%char EmptyString.
Definition dq : string := String "034"%char EmptyString.

End Py.

(** ** The log tailer: class [DataSource] *)

Module DataSource.
Import Py.

(** An open file object, named by its descriptor. *)
Definition file_object : Set := nat.

Record t : Type := mk {
  fname : string;
  logs : option (list (list value));
  running : bool;
  file : option file_object;
  Nruns : Z
}.

(** [__init__] *)
Definition init (fname : string) : t :=
  {| fname := fname; logs := None; running := false; file := None; Nruns := 0%Z |}.

Definition set_file (f : option file_object) (self : t) : t :=
  {| fname := fname self; logs := logs self; running := running self;
     file := f; Nruns := Nruns self |}.

Definition set_logs (l : option (list (list value))) (self : t) : t :=
  {| fname := fname self; logs := l; running := running self;
     file := file self; Nruns := Nruns self |}.

Definition set_running (b : bool) (self : t) : t :=
  {| fname := fname self; logs := logs self; running := b;
     file := file self; Nruns := Nruns self |}.

(** What the operating system answers to the calls of one loop iteration:
    the link count [os.fstat(fd).st_nlink] of the open handle, the string
    [readline()] returns (empty at end of file), and the result of
    [open(fname, "r")].  [stop] tells whether another thread cleared
    [running] before the loop condition is tested. *)
Record os : Type := mk_os {
  stop : bool;
  st_nlink : nat;
  readline : string;
  open_ : exn + file_object
}.

(** One iteration ends normally, with the pauses it made (in seconds), or
    with an exception that nothing in [run] catches. *)
Inductive outcome : Type :=
| Next (self : t) (sleeps : list Q)
| Raise (e : exn) (self : t).

(** [self.logs[-1].append(v)] *)
Definition append_sample (v : value) (l : option (list (list value)))
  : exn + list (list value) :=
  match l with
  | None => inl TypeError
  | Some [] => inl IndexError
  | Some rs => inr (removelast rs ++ [last rs [] ++ [v]])
  end.

(** [self.logs.append([])] *)
Definition append_run (l : option (list (list value)))
  : exn + list (list value) :=
  match l with
  | None => inl AttributeError
  | Some rs => inr (rs ++ [[]])
  end.

Section Run.

(** [ast.literal_eval] is library code: the tailer is modelled over any
    function from a line to the value it denotes or the exception raised. *)
Variable literal_eval : string -> exn + value.

(** [literal_eval(line)["energy"]] *)
Definition energy_of (line : string) : exn + value :=
  match literal_eval line with
  | inl e => inl e
  | inr d => getitem d "energy"
  end.

(** The body of [while self.running:] in [run]. *)
Definition iteration (w : os) (self : t) : outcome :=
  match file self with
  | Some f =>
      if (st_nlink w =? 0)%nat then
        Next (set_file None self) []
      else
        let line := readline w in
        if String.eqb line "" then
          Next self [0.1]
        else if startswith line "{" then
          match energy_of line with
          | inl e => Raise e self
          | inr v =>
              match append_sample v (logs self) with
              | inl e => Raise e self
              | inr l => Next (set_logs (Some l) self) []
              end
          end
        else if startswith line "#" then
          match append_run (logs self) with
          | inl e => Raise e self
          | inr l => Next (set_logs (Some l) self) []
          end
        else
          Next self []
  | None =>
      match open_ w with
      | inr f => Next (set_logs (Some [[]]) (set_file (Some f) self)) []
      | inl FileNotFoundError => Next self [0.1]
      | inl e => Raise e self
      end
  end.

(** How far the thread got on a finite prefix of the answers. *)
Inductive thread : Type :=
| Alive (self : t)
| Returned (self : t)
| Died (e : exn) (self : t).

(** [while self.running: ...] over the answers of successive iterations. *)
Fixpoint loop (ws : list os) (self : t) : thread :=
  match ws with
  | [] => Alive self
  | w :: rest =>
      let self := if stop w then set_running false self else self in
      if running self then
        match iteration w self with
        | Next self' _ => loop rest self'
        | Raise e self' => Died e self'
        end
      else Returned self
  end.

(** [run] *)
Definition run (ws : list os) (self : t) : thread :=
  loop ws (set_running true self).

(** *** Run segmentation, as the specification words it

    The lines are cut at the marker lines; each piece gives one run: the
    energies of its observation lines, in order. *)

Definition is_marker (line : string) : bool := startswith line "#".
Definition is_observation (line : string) : bool := startswith line "{".

Definition markers (lines : list string) : nat :=
  List.length (filter is_marker lines).

Fixpoint split_at_markers (lines : list string) : list (list string) :=
  match lines with
  | [] => [[]]
  | l :: rest =>
      if is_marker l then [] :: split_at_markers rest
      else
        match split_at_markers rest with
        | piece :: pieces => (l :: piece) :: pieces
        | [] => [[l]]
        end
  end.

Definition energies (piece : list string) : list value :=
  flat_map (fun l =>
              if is_observation l then
                match energy_of l with
                | inr v => [v]
                | inl _ => []
                end
              else []) piece.

Definition segmented (lines : list string) : list (list value) :=
  map energies (split_at_markers lines).

(** A line opening with a brace is an observation line: it carries a number
    under [energy]. *)
Definition well_formed (line : string) : Prop :=
  is_observation line = true ->
  exists e : Q, energy_of line = inr (VNum e).

End Run.

(** The state right after [open] succeeded with handle [f]. *)
Definition opened (f : file_object) (self : t) : t :=
  set_logs (Some [[]]) (set_file (Some f) self).

(** Reading one line from a handle that is still linked. *)
Definition read (line : string) : os :=
  {| stop := false; st_nlink := 1; readline := line; open_ := inl FileNotFoundError |}.

(** The handle stays linked and nobody stops the thread. *)
Definition polling (w : os) : Prop :=
  stop w = false /\ st_nlink w <> 0%nat.

(** End of the available data on a linked handle. *)
Definition idle (w : os) : Prop :=
  polling w /\ readline w = "".

(** The file is not there when the tailer tries to open it. *)
Definition missing (w : os) : Prop :=
  stop w = false /\ open_ w = inl FileNotFoundError.

(** The iteration opens a fresh handle. *)
Definition opens (w : os) (self : t) : Prop :=
  file self = None /\ exists f : file_object, open_ w = inr f.

(** The run list only grows: it stays as it is, gets a new empty run, or its
    last run gets one more sample. *)
Inductive appended : list (list value) -> list (list value) -> Prop :=
| appended_nothing (rs : list (list value)) :
    appended rs rs
| appended_run (rs : list (list value)) :
    appended rs (rs ++ [[]])
| appended_sample (rs : list (list value)) (r : list value) (v : value) :
    appended (rs ++ [r]) (rs ++ [r ++ [v]]).

(** A tailer that has just opened its file, and the five lines of the
    end-to-end example of the specification. *)
Definition example_state : t :=
  opened 3%nat (set_running true (init "vqe_stream.json")).

Definition observation_line (energy : string) : string :=
  ("{" ++ dq ++ "energy" ++ dq ++ ": " ++ energy ++ "}" ++ nl)%string.

Definition example_lines : list string :=
  [("#" ++ nl)%string; observation_line "-1.0"; observation_line "-1.5";
   ("#" ++ nl)%string; observation_line "-0.9"].

(** A run list whose samples are all numbers, as the renderer uses it. *)
Definition number (v : value) : option Q :=
  match v with
  | VNum q => Some q
  | _ => None
  end.

Fixpoint all_some {A : Type} (l : list (option A)) : option (list A) :=
  match l with
  | [] => Some []
  | Some x :: rest =>
      match all_some rest with
      | Some xs => Some (x :: xs)
      | None => None
      end
  | None :: _ => None
  end.

Definition numeric_run (r : list value) : option (list Q) :=
  all_some (map number r).

Definition numeric (l : list (list value)) : option (list (list Q)) :=
  all_some (map numeric_run l).

(** The state a thread is in, however far it got. *)
Definition state_of (th : thread) : t :=
  match th with
  | Alive self | Returned self | Died _ self => self
  end.

(** The run list is absent only while no file was ever opened, and once it
    is there it has a last run for [self.logs[-1]] to find. *)
Definition sound (self : t) : Prop :=
  match logs self with
  | None => file self = None
  | Some rs => rs <> []
  end.

(** The answers on which [run] can end with an exception [e]: [open] raises
    something other than [FileNotFoundError], or a line opening with a brace
    fails in [literal_eval] or in the look-up of [energy]. *)
Definition fails_with (literal_eval : string -> exn + value) (e : exn) (w : os)
  : Prop :=
  (open_ w = inl e /\ e <> FileNotFoundError) \/
  (startswith (readline w) "{" = true /\
   energy_of literal_eval (readline w) = inl e).

(** Another thread clears [running] before this loop test. *)
Definition stop_request : os :=
  {| stop := true; st_nlink := 1; readline := ""; open_ := inl FileNotFoundError |}.

End DataSource.

(** ** The style table: class [Colors] *)

Module Colors.
Import Py.

(** [end] *)
Definition end_ : string := String "027"%char "[0m".

(** [';'.join([str(style), str(fg), str(bg)])] *)
Definition format (style fg bg : nat) : string :=
  (str style ++ ";" ++ str fg ++ ";" ++ str bg)%string.

(** The three nested loops of [__init__]. *)
Definition styles : list string :=
  flat_map (fun style =>
    flat_map (fun fg =>
      map (fun bg => format style fg bg) (seq 40 8))
      (seq 30 8))
    (seq 0 8).

Definition N : nat := List.length styles.

End Colors.

(** ** The renderer: class [CURSESDisplay] *)

Module CURSESDisplay.
Import Py.

(** The renderer reads the tailer's run list; its samples are numbers here. *)
Definition run_list : Type := option (list (list Q)).

Record t : Type := mk {
  running : bool;
  numerical_markers : bool;
  color : bool
}.

(** [__init__] *)
Definition init : t :=
  {| running := false; numerical_markers := true; color := false |}.

(** One field of the statistics text: a number, the square root of a number
    (which numpy extracts in floating point; the radicand is kept exact), or a
    piece of text. *)
Inductive cell : Type :=
| Num (q : Q)
| Root (q : Q)
| Str (s : string).

(** The arguments of [stats_format.format]. *)
Record stats : Type := mk_stats {
  nruns : Z;
  mine : Q;
  mean : cell;
  var : cell
}.

(** What [draw_stats] writes into the cleared window. *)
Inductive panel : Type :=
| Stats (s : stats)
| Message (text : string).

Definition sum (l : list Q) : Q := fold_left Qplus l 0.

(** [np.mean(l)] *)
Definition np_mean (l : list Q) : Q :=
  sum l / inject_Z (Z.of_nat (List.length l)).

(** [np.std(l)]: the root of the mean squared deviation from the mean. *)
Definition np_std (l : list Q) : cell :=
  Root (np_mean (map (fun x => (x - np_mean l) * (x - np_mean l)) l)).

(** The body of the [for] loop of [draw_stats]; [n] is [len(self.data.logs)]. *)
Definition stats_step (n : nat) (acc : list Q * Q) (il : nat * list Q)
  : list Q * Q :=
  let '(final_es, min_) := acc in
  let '(i, log) := il in
  match log with
  | [] => acc
  | x :: xs =>
      let min_ := min2 min_ (min_of x xs) in
      if negb (Z.of_nat i =? Z.of_nat n - 1)%Z
      then (final_es ++ [min_of x xs], min_)
      else (final_es, min_)
  end.

(** [draw_stats] *)
Definition draw_stats (logs : run_list) : panel :=
  match logs with
  | Some (r :: rs) =>
      let ls := r :: rs in
      let '(final_es, min_) :=
        fold_left (stats_step (List.length ls)) (enumerate ls) ([], 0) in
      Stats {| nruns := Z.of_nat (List.length ls) - 1;
               mine := min_;
               mean := if (1 <? List.length final_es)%nat
                       then Num (np_mean final_es) else Str "Insufficent data";
               var := if (1 <? List.length final_es)%nat
                      then np_std final_es else Str "Insufficent data" |}
  | _ => Message "No data yet!"
  end.

(** The smallest and the largest of a seed and the members of a list. *)
Definition least (seed : Q) (l : list Q) : Q := fold_left Qmin l seed.
Definition greatest (seed : Q) (l : list Q) : Q := fold_left Qmax l seed.

(** The minimum of every run that has a sample. *)
Definition minima (runs : list (list Q)) : list Q :=
  flat_map (fun log =>
              match log with
              | [] => []
              | x :: xs => [min_of x xs]
              end) runs.

(** The finished runs: all but the last one. *)
Definition finished (ls : list (list Q)) : list (list Q) := removelast ls.

(** [getmarker]; [n] is [len(self.data.logs)]. *)
Definition getmarker (self : t) (n i : nat) : string :=
  let marker :=
    if (Z.of_nat i =? Z.of_nat n - 1)%Z then "_,"
    else if numerical_markers self then str i
    else "_." in
  if color self then
    (nth (i mod Colors.N) Colors.styles "" ++ marker ++ Colors.end_)%string
  else marker.

(** What [draw_graphs] hands to the plotting library: the shape of the figure,
    the series plotted (marker and samples, the abscissae being the indices)
    and the bounds given to [ylim]. *)
Record figure : Type := mk_figure {
  shape : Z * Z;
  series : list (string * list Q);
  ylim : Q * Q
}.

(** The body of the [for] loop of [draw_graphs]. *)
Definition graphs_step (self : t) (n : nat)
  (acc : list (string * list Q) * Q * Q) (il : nat * list Q)
  : list (string * list Q) * Q * Q :=
  let '(plotted, min_, max_) := acc in
  let '(i, log) := il in
  match log with
  | [] => acc
  | x :: xs =>
      (plotted ++ [(getmarker self n i, log)],
       min2 min_ (min_of x xs),
       max2 max_ (max_of x xs))
  end.

(** [draw_graphs]; [height] and [width] are what [window.getmaxyx()] answers.
    Nothing is drawn while the run list is empty or absent. *)
Definition draw_graphs (self : t) (height width : Z) (logs : run_list)
  : option figure :=
  match logs with
  | Some (r :: rs) =>
      let ls := r :: rs in
      let '(plotted, min_, max_) :=
        fold_left (graphs_step self (List.length ls)) (enumerate ls)
                  ([], -1.7, -1.6) in
      Some {| shape := (width - 2, height - 3)%Z;
              series := plotted;
              ylim := (min_, max_) |}
  | _ => None
  end.

(** What the terminal and the tailer answer in one iteration of [_main]:
    whether another thread cleared [running] before the loop test, the key
    [stdscr.getch()] returns (-1 when none is pressed), the size of the chart
    window and the run list as the tailer has it. *)
Record tty : Type := mk_tty {
  stop : bool;
  getch : Z;
  maxyx : Z * Z;
  logs : run_list
}.

Record frame : Type := mk_frame {
  chart : option figure;
  stats_panel : panel
}.

Inductive control : Type :=
| Continue
| Break.

Definition ord_q : Z := 113.
Definition ord_n : Z := 110.
Definition ord_c : Z := 99.

Definition toggle_markers (self : t) : t :=
  {| running := running self;
     numerical_markers := negb (numerical_markers self);
     color := color self |}.

Definition toggle_color (self : t) : t :=
  {| running := running self;
     numerical_markers := numerical_markers self;
     color := negb (color self) |}.

Definition set_running (b : bool) (self : t) : t :=
  {| running := b;
     numerical_markers := numerical_markers self;
     color := color self |}.

(** The body of [while self.running:] in [_main]: the key is handled, then
    both panels are drawn and the loop pauses.  The refreshes of the screen
    and the labels written on the borders are left out. *)
Definition iteration (w : tty) (self : t)
  : control * t * option frame * list Q :=
  let cmd := getch w in
  if (cmd =? ord_q)%Z then (Break, self, None, [])
  else
    let self :=
      if (cmd =? ord_n)%Z then toggle_markers self
      else if (cmd =? ord_c)%Z && false then toggle_color self
      else self in
    (Continue, self,
     Some {| chart := draw_graphs self (fst (maxyx w)) (snd (maxyx w)) (logs w);
             stats_panel := draw_stats (logs w) |},
     [0.1]).

(** How the loop stands after a finite prefix of the answers. *)
Inductive thread : Type :=
| Alive (self : t)
| Left (self : t)
| Returned (self : t).

(** [while self.running: ...]; the frames drawn are collected in order.
    [Left] is the exit through [break], [Returned] the exit through the loop
    test. *)
Fixpoint loop (ws : list tty) (self : t) : thread * list frame :=
  match ws with
  | [] => (Alive self, [])
  | w :: rest =>
      let self := if stop w then set_running false self else self in
      if running self then
        match iteration w self with
        | (Break, self', _, _) => (Left self', [])
        | (Continue, self', drawn, _) =>
            let (th, frames) := loop rest self' in
            (th, match drawn with Some f => f :: frames | None => frames end)
        end
      else (Returned self, [])
  end.

(** [_main], after the windows are laid out. *)
Definition _main (ws : list tty) (self : t) : thread * list frame :=
  loop ws (set_running true self).

(** A run that [draw_graphs] plots: [len(log) >= 1]. *)
Definition has_sample (log : list Q) : bool :=
  match log with
  | [] => false
  | _ :: _ => true
  end.

(** The state a loop is in, however it stands. *)
Definition state_of (th : thread) : t :=
  match th with
  | Alive self | Left self | Returned self => self
  end.

(** An iteration that goes through: nobody stops the renderer and the key,
    if any, is not [q]. *)
Definition plain (w : tty) : Prop :=
  stop w = false /\ getch w <> ord_q.

(** How often [n] is pressed in a sequence of iterations. *)
Definition presses_n (ws : list tty) : nat :=
  count_occ Z.eq_dec (map getch ws) ord_n.


End CURSESDisplay.

(** ** The controller: the [__main__] block *)

Module Main.

Inductive event : Type :=
| Print (text : string)
| Exit (status : Z)
| GetFname
| Uncaught (e : Py.exn)
| NewDataSource (fname : string)
| NewCURSESDisplay
| StartData
| StartUi
| InstallSigint
| JoinUi
| ClearDataRunning
| JoinData.

(** The statements of the block in order, as the events they cause.  [isatty]
    is the answer of [sys.stdin.isatty()], [argv] is [sys.argv], [get_fname]
    the outcome of the look-up of the stream file, made only when no path is
    given on the command line. *)
Definition main (isatty : bool) (argv : list string) (get_fname : Py.exn + string)
  : list event :=
  if negb isatty then
    [Print "please run interactively."; Exit 1]
  else
    let start fname :=
      [NewDataSource fname; NewCURSESDisplay; StartData; StartUi;
       InstallSigint; JoinUi; ClearDataRunning; JoinData] in
    if (1 <? List.length argv)%nat then start (nth 1 argv "")
    else
      match get_fname with
      | inr fname => GetFname :: start fname
      | inl e => [GetFname; Uncaught e; Exit 1]
      end.

(** Events that construct or start a worker. *)
Definition touches_worker (e : event) : bool :=
  match e with
  | NewDataSource _ | NewCURSESDisplay | StartData | StartUi => true
  | _ => false
  end.

(** *** [get_fname]

    The environment is a partial map from names to strings.  [ck.access] is
    code of the CK framework: it is a parameter that answers a request with a
    value or an exception (a failing [import ck.kernel] counts as one, the
    import being made after the program is chosen and right before the
    call).  [os.path] is taken to be [posixpath]. *)

(** [path.endswith('/')] *)
Fixpoint endswith_sep (path : string) : bool :=
  match path with
  | EmptyString => false
  | String c EmptyString => Ascii.eqb c "/"%char
  | String _ rest => endswith_sep rest
  end.

(** One round of the loop of [posixpath.join]. *)
Definition join_step (path b : string) : string :=
  if Py.startswith b "/" then b
  else if String.eqb path "" || endswith_sep path then (path ++ b)%string
  else (path ++ "/" ++ b)%string.

(** [os.path.join(a, *p)] *)
Definition os_path_join (a : string) (p : list string) : string :=
  fold_left join_step p a.

(** [v > 0] *)
Definition gt_zero (v : Py.value) : Py.exn + bool :=
  match v with
  | Py.VNum q => inr (Py.lt 0 q)
  | Py.VBool b => inr b
  | _ => inl Py.TypeError
  end.

(** The dict literal indexed by the provider. *)
Definition program_of (provider : string) : option string :=
  if String.eqb provider "ibm" then Some "qiskit-vqe"
  else if String.eqb provider "rigetti" then Some "rigetti-vqe2"
  else None.

Definition load_adict (program : string) : Py.value :=
  Py.VDict [(Py.VStr "action", Py.VStr "load");
            (Py.VStr "module_uoa", Py.VStr "program");
            (Py.VStr "data_uoa", Py.VStr program)].

(** [get_fname]: what is appended to [sys.path], and what is returned or
    raised. *)
Definition get_fname (environ : string -> option string)
  (ck_access : Py.value -> Py.exn + Py.value)
  : list string * (Py.exn + Py.value) :=
  let sys_path :=
    match environ "CK_ROOT" with
    | Some root => [root]
    | None => []
    end in
  let provider :=
    match environ "VQE_QUANTUM_PROVIDER" with
    | Some p => p
    | None => "ibm"
    end in
  (sys_path,
   match program_of provider with
   | None => inl Py.KeyError
   | Some program =>
       match ck_access (load_adict program) with
       | inl e => inl e
       | inr r =>
           match Py.getitem r "return" with
           | inl e => inl e
           | inr code =>
               match gt_zero code with
               | inl e => inl e
               | inr true => inr r
               | inr false =>
                   match Py.getitem r "path" with
                   | inl e => inl e
                   | inr (Py.VStr program_entry_path) =>
                       inr (Py.VStr (os_path_join program_entry_path
                                                  ["tmp"; "vqe_stream.json"]))
                   | inr _ => inl Py.TypeError
                   end
               end
           end
       end
   end).

(** The events after which the workers run and are waited for. *)
Definition started : list event :=
  [StartData; StartUi; InstallSigint; JoinUi; ClearDataRunning; JoinData].

End Main.

(** * Properties *)

(** ** Lists and prefixes *)

Module Aux.
Import Py.

Lemma removelast_snoc {A : Type} (l : list A) (x : A) :
  removelast (l ++ [x]) = l.
Proof.
  induction l as [|a l IH]; simpl; [reflexivity|].
  rewrite IH. destruct (l ++ [x]) eqn:E; [|reflexivity].
  destruct l; discriminate.
Qed.

Lemma last_snoc {A : Type} (l : list A) (x d : A) :
  last (l ++ [x]) d = x.
Proof.
  induction l as [|a l IH]; simpl; [reflexivity|].
  rewrite IH. destruct (l ++ [x]) eqn:E; [|reflexivity].
  destruct l; discriminate.
Qed.

(** A prefix of one character is a test on the first character. *)
Lemma startswith_char (a : ascii) (line : string) :
  startswith line (String a "") =
  match line with
  | String c _ => Ascii.eqb a c
  | EmptyString => false
  end.
Proof.
  destruct line as [|c rest]; [reflexivity|].
  unfold startswith. cbn [String.prefix].
  destruct (ascii_dec a c) as [->|Hne].
  - rewrite Ascii.eqb_refl. destruct rest; reflexivity.
  - symmetry. apply Ascii.eqb_neq. exact Hne.
Qed.

(** A line has one first character: the two prefixes exclude each other. *)
Lemma observation_not_marker (line : string) :
  startswith line "{" = true -> startswith line "#" = false.
Proof.
  rewrite !startswith_char. destruct line as [|c rest]; [discriminate|].
  intros H. apply Ascii.eqb_eq in H. subst c. reflexivity.
Qed.

End Aux.

(** ** The log tailer *)

Module DataSourceSpec.
Import Py DataSource Aux.

Section Tailer.

Variable literal_eval : string -> exn + value.

Lemma split_at_markers_cons (lines : list string) :
  exists piece pieces, split_at_markers lines = piece :: pieces.
Proof.
  induction lines as [|l rest [piece [pieces IH]]]; simpl.
  - eauto.
  - destruct (is_marker l); [eauto|]. rewrite IH. eauto.
Qed.

Lemma segmented_marker (l : string) (rest : list string) :
  is_marker l = true ->
  segmented literal_eval (l :: rest) = [] :: segmented literal_eval rest.
Proof.
  intros H. unfold segmented. simpl. rewrite H. reflexivity.
Qed.

Lemma segmented_observation (l : string) (rest : list string) (v : value) :
  is_observation l = true -> energy_of literal_eval l = inr v ->
  exists s ss,
    segmented literal_eval rest = s :: ss /\
    segmented literal_eval (l :: rest) = (v :: s) :: ss.
Proof.
  intros Ho Hv. unfold segmented. simpl.
  unfold is_marker. rewrite (observation_not_marker l Ho).
  destruct (split_at_markers_cons rest) as [piece [pieces ->]].
  simpl. rewrite Ho, Hv. simpl. eauto.
Qed.

Lemma segmented_other (l : string) (rest : list string) :
  is_observation l = false -> is_marker l = false ->
  segmented literal_eval (l :: rest) = segmented literal_eval rest.
Proof.
  intros Ho Hm. unfold segmented. simpl. rewrite Hm.
  destruct (split_at_markers_cons rest) as [piece [pieces ->]].
  simpl. rewrite Ho. reflexivity.
Qed.

Lemma length_segmented (lines : list string) :
  List.length (segmented literal_eval lines) = S (markers lines).
Proof.
  unfold segmented, markers. rewrite length_map.
  induction lines as [|l rest IH]; simpl; [reflexivity|].
  destruct (is_marker l); simpl; [now rewrite IH|].
  destruct (split_at_markers_cons rest) as [piece [pieces E]].
  rewrite E in *. exact IH.
Qed.

(** *** One iteration on an open, linked handle, by the kind of line read *)

(** Enter the branch of [iteration] that reads a line. *)
Ltac read_branch Hf Hn :=
  unfold iteration; rewrite Hf;
  apply Nat.eqb_neq in Hn; rewrite Hn.

(** A line with a first character is not the empty string. *)
Ltac not_eof Hprefix :=
  let E := fresh "E" in
  destruct (String.eqb (readline _) "") eqn:E;
  [apply String.eqb_eq in E; rewrite E in Hprefix; discriminate|].

Lemma iteration_unlinked (w : os) (self : t) (f : file_object) :
  file self = Some f -> st_nlink w = 0%nat ->
  iteration literal_eval w self = Next (set_file None self) [].
Proof.
  intros Hf Hn. unfold iteration. rewrite Hf, Hn. reflexivity.
Qed.

Lemma iteration_eof (w : os) (self : t) (f : file_object) :
  file self = Some f -> st_nlink w <> 0%nat -> readline w = "" ->
  iteration literal_eval w self = Next self [0.1].
Proof.
  intros Hf Hn Hl. read_branch Hf Hn. rewrite Hl. reflexivity.
Qed.

Lemma iteration_observation (w : os) (self : t) (f : file_object)
  (rs : list (list value)) (r : list value) (v : value) :
  file self = Some f -> st_nlink w <> 0%nat ->
  logs self = Some (rs ++ [r]) ->
  startswith (readline w) "{" = true ->
  energy_of literal_eval (readline w) = inr v ->
  iteration literal_eval w self
  = Next (set_logs (Some (rs ++ [r ++ [v]])) self) [].
Proof.
  intros Hf Hn Hl Ho Hv. read_branch Hf Hn. not_eof Ho.
  rewrite Ho, Hv, Hl. unfold append_sample.
  rewrite removelast_snoc, last_snoc.
  destruct (rs ++ [r]) eqn:E'; [destruct rs; discriminate | reflexivity].
Qed.

Lemma iteration_failure (w : os) (self : t) (f : file_object) (e : exn) :
  file self = Some f -> st_nlink w <> 0%nat ->
  startswith (readline w) "{" = true ->
  energy_of literal_eval (readline w) = inl e ->
  iteration literal_eval w self = Raise e self.
Proof.
  intros Hf Hn Ho He. read_branch Hf Hn. not_eof Ho.
  rewrite Ho, He. reflexivity.
Qed.

Lemma iteration_marker (w : os) (self : t) (f : file_object)
  (rs : list (list value)) :
  file self = Some f -> st_nlink w <> 0%nat ->
  logs self = Some rs ->
  startswith (readline w) "{" = false ->
  startswith (readline w) "#" = true ->
  iteration literal_eval w self = Next (set_logs (Some (rs ++ [[]])) self) [].
Proof.
  intros Hf Hn Hl Ho Hm. read_branch Hf Hn. not_eof Hm.
  rewrite Ho, Hm, Hl. reflexivity.
Qed.

Lemma iteration_other (w : os) (self : t) (f : file_object) :
  file self = Some f -> st_nlink w <> 0%nat ->
  startswith (readline w) "{" = false ->
  startswith (readline w) "#" = false ->
  exists sleeps, iteration literal_eval w self = Next self sleeps.
Proof.
  intros Hf Hn Ho Hm. read_branch Hf Hn.
  destruct (String.eqb (readline w) ""); [eauto|].
  rewrite Ho, Hm. eauto.
Qed.

(** *** A sequence of reads *)

Lemma loop_reads (f : file_object) (ws : list os) :
  forall (self : t) (rs : list (list value)) (r : list value),
    running self = true -> file self = Some f ->
    logs self = Some (rs ++ [r]) ->
    Forall polling ws ->
    Forall (well_formed literal_eval) (map readline ws) ->
    exists self' s ss,
      loop literal_eval ws self = Alive self' /\
      running self' = true /\ file self' = Some f /\
      segmented literal_eval (map readline ws) = s :: ss /\
      logs self' = Some (rs ++ (r ++ s) :: ss).
Proof.
  induction ws as [|w ws IH]; intros self rs r Hrun Hf Hl Hp Hwf.
  - exists self, [], []. simpl. rewrite app_nil_r. auto.
  - inversion Hp as [|? ? [Hstop Hn] Hp']; subst.
    inversion Hwf as [|? ? Hw Hwf']; subst.
    simpl loop. rewrite Hstop, Hrun. simpl map.
    destruct (startswith (readline w) "{") eqn:Ho.
    + destruct (Hw Ho) as [e He].
      rewrite (iteration_observation w self f rs r (VNum e) Hf Hn Hl Ho He).
      destruct (IH (set_logs (Some (rs ++ [r ++ [VNum e]])) self) rs
                   (r ++ [VNum e]) Hrun Hf eq_refl Hp' Hwf')
        as (self' & s & ss & Hloop & Hrun' & Hf' & Hseg & Hl').
      destruct (segmented_observation (readline w) (map readline ws)
                  (VNum e) Ho He) as (s0 & ss0 & E0 & E1).
      rewrite Hseg in E0. injection E0 as <- <-.
      exists self', (VNum e :: s), ss. repeat split; auto.
      rewrite Hl', <- app_assoc. reflexivity.
    + destruct (startswith (readline w) "#") eqn:Hm.
      * rewrite (iteration_marker w self f (rs ++ [r]) Hf Hn Hl Ho Hm).
        destruct (IH (set_logs (Some ((rs ++ [r]) ++ [[]])) self) (rs ++ [r])
                     [] Hrun Hf eq_refl Hp' Hwf')
          as (self' & s & ss & Hloop & Hrun' & Hf' & Hseg & Hl').
        exists self', [], (s :: ss). repeat split; auto.
        -- rewrite (segmented_marker _ _ Hm), Hseg. reflexivity.
        -- rewrite Hl', app_nil_r, <- app_assoc. reflexivity.
      * destruct (iteration_other w self f Hf Hn Ho Hm) as [sl ->].
        destruct (IH self rs r Hrun Hf Hl Hp' Hwf')
          as (self' & s & ss & Hloop & Hrun' & Hf' & Hseg & Hl').
        exists self', s, ss. repeat split; auto.
        rewrite (segmented_other _ _ Ho Hm). exact Hseg.
Qed.

Lemma all_some_map_Some {A B : Type} (g : B -> option A) (h : A -> B) (l : list A) :
  (forall x, g (h x) = Some x) ->
  all_some (map g (map h l)) = Some l.
Proof.
  intros Hg. induction l as [|x l IH]; simpl; [reflexivity|].
  rewrite Hg, IH. reflexivity.
Qed.

Lemma numeric_numbers (runs : list (list Q)) :
  numeric (map (map VNum) runs) = Some runs.
Proof.
  unfold numeric. apply all_some_map_Some. intros r.
  unfold numeric_run. apply all_some_map_Some. reflexivity.
Qed.

(** Observation lines give runs of numbers. *)
Lemma segmented_numbers (lines : list string) :
  Forall (well_formed literal_eval) lines ->
  exists runs, segmented literal_eval lines = map (map VNum) runs.
Proof.
  induction lines as [|l rest IH]; intros Hwf.
  - exists [[]]. reflexivity.
  - inversion Hwf as [|? ? Hw Hwf']; subst.
    destruct (IH Hwf') as [runs Hruns].
    destruct (is_observation l) eqn:Ho.
    + destruct (Hw Ho) as [e He].
      destruct (segmented_observation l rest (VNum e) Ho He)
        as (s & ss & E0 & E1).
      rewrite Hruns in E0. destruct runs as [|q qs]; [discriminate|].
      injection E0 as <- <-.
      exists ((e :: q) :: qs). rewrite E1. reflexivity.
    + destruct (is_marker l) eqn:Hm.
      * exists ([] :: runs). rewrite (segmented_marker _ _ Hm), Hruns.
        reflexivity.
      * exists runs. rewrite (segmented_other _ _ Ho Hm). exact Hruns.
Qed.

(** C1. Run segmentation: after a successful open, reading a sequence of lines
    with k marker lines (every line opening with a brace being an observation
    line) leaves a run list of k+1 runs; the runs are the pieces between
    markers, each holding in order the energies of its observation lines, all
    of them numbers; a line with any other prefix changes nothing. *)
Theorem run_segmentation :
  forall (self : t) (f : file_object) (ws : list os),
    running self = true ->
    Forall polling ws ->
    Forall (well_formed literal_eval) (map readline ws) ->
    (exists self' runs,
        loop literal_eval ws (opened f self) = Alive self' /\
        logs self' = Some (segmented literal_eval (map readline ws)) /\
        numeric (segmented literal_eval (map readline ws)) = Some runs /\
        List.length runs = S (markers (map readline ws))) /\
    (forall (w : os) (s : t) (g : file_object),
        file s = Some g -> st_nlink w <> 0%nat ->
        startswith (readline w) "{" = false ->
        startswith (readline w) "#" = false ->
        exists sleeps, iteration literal_eval w s = Next s sleeps).
Proof.
  intros self f ws Hrun Hp Hwf. split.
  - destruct (loop_reads f ws (opened f self) [] [] Hrun eq_refl eq_refl Hp Hwf)
      as (self' & s & ss & Hloop & _ & _ & Hseg & Hl).
    destruct (segmented_numbers _ Hwf) as [runs Hruns].
    exists self', runs. repeat split.
    + exact Hloop.
    + rewrite Hl, Hseg. reflexivity.
    + rewrite Hruns. apply numeric_numbers.
    + rewrite <- (length_segmented (map readline ws)), Hruns, !length_map.
      reflexivity.
  - intros w s g Hf Hn Ho Hm. exact (iteration_other w s g Hf Hn Ho Hm).
Qed.

(** C4, as the code has it.  A line opening with a brace whose literal
    evaluation or [energy] look-up raises leaves the tailer's state, run list
    included, as it was, but the exception is caught nowhere: the thread ends
    with it.  A line that evaluates to a mapping with an [energy] entry has
    that entry appended to the last run, number or not. *)
Theorem malformed_line_raises :
  forall (self : t) (f : file_object) (w : os)
         (rs : list (list value)) (r : list value),
    running self = true -> stop w = false ->
    file self = Some f -> st_nlink w <> 0%nat ->
    logs self = Some (rs ++ [r]) ->
    startswith (readline w) "{" = true ->
    match energy_of literal_eval (readline w) with
    | inl e =>
        iteration literal_eval w self = Raise e self /\
        forall rest, loop literal_eval (w :: rest) self = Died e self
    | inr v =>
        iteration literal_eval w self
        = Next (set_logs (Some (rs ++ [r ++ [v]])) self) []
    end.
Proof.
  intros self f w rs r Hrun Hstop Hf Hn Hl Ho.
  destruct (energy_of literal_eval (readline w)) as [e|v] eqn:He.
  - pose proof (iteration_failure w self f e Hf Hn Ho He) as Hit.
    split; [exact Hit|]. intros rest. simpl. rewrite Hstop, Hrun, Hit.
    reflexivity.
  - exact (iteration_observation w self f rs r v Hf Hn Hl Ho He).
Qed.

(** No iteration that ends normally and opens no fresh handle discards
    anything from the run list. *)
Lemma iteration_appends (w : os) (self self' : t) (sleeps : list Q)
  (rs : list (list value)) :
  iteration literal_eval w self = Next self' sleeps ->
  ~ opens w self ->
  logs self = Some rs ->
  exists rs', logs self' = Some rs' /\ appended rs rs'.
Proof.
  unfold iteration, opens. intros Hit Hno Hl.
  destruct (file self) as [f|] eqn:Hf.
  - destruct (st_nlink w =? 0)%nat.
    { injection Hit as <- _. exists rs. split; [exact Hl | constructor]. }
    destruct (String.eqb (readline w) "").
    { injection Hit as <- _. exists rs. split; [exact Hl | constructor]. }
    destruct (startswith (readline w) "{").
    { destruct (energy_of literal_eval (readline w)) as [e|v]; [discriminate|].
      rewrite Hl in Hit. unfold append_sample in Hit.
      destruct rs as [|r0 rs0]; [discriminate|].
      injection Hit as <- _. eexists. split; [reflexivity|].
      assert (Hne : r0 :: rs0 <> []) by discriminate.
      rewrite (app_removelast_last [] Hne) at 1. constructor. }
    destruct (startswith (readline w) "#").
    { rewrite Hl in Hit. simpl in Hit. injection Hit as <- _.
      eexists. split; [reflexivity | constructor]. }
    injection Hit as <- _. exists rs. split; [exact Hl | constructor].
  - destruct (open_ w) as [e|f'].
    + destruct e; try discriminate.
      injection Hit as <- _. exists rs. split; [exact Hl | constructor].
    + exfalso. apply Hno. eauto.
Qed.

(** While the file is missing the tailer waits in the state it is in. *)
Lemma loop_missing (fails rest : list os) (self : t) :
  running self = true -> file self = None -> Forall missing fails ->
  loop literal_eval (fails ++ rest) self = loop literal_eval rest self.
Proof.
  intros Hrun Hf Hall. induction Hall as [|w fails [Hstop Ho] _ IH].
  - reflexivity.
  - simpl. rewrite Hstop, Hrun. unfold iteration. rewrite Hf, Ho. exact IH.
Qed.

(** C5. File-replacement reset: when the handle of a tailer holding run list R
    is found unlinked, the handle is dropped with R still in place; R stays
    while the path cannot be opened, and the first successful open sets the
    run list to one empty run.  The reset occurs exactly at a fresh open: an
    iteration that opens a handle ends with the run list being one empty run,
    and one that opens none only appends to the run list. *)
Theorem file_replacement_reset :
  (forall (self : t) (R : list (list value)) (f f' : file_object)
          (w1 w2 : os) (fails : list os),
      running self = true -> file self = Some f -> logs self = Some R ->
      stop w1 = false -> st_nlink w1 = 0%nat ->
      Forall missing fails ->
      stop w2 = false -> open_ w2 = inr f' ->
      exists s1 s2,
        loop literal_eval (w1 :: fails) self = Alive s1 /\
        file s1 = None /\ logs s1 = Some R /\
        loop literal_eval (w1 :: fails ++ [w2]) self = Alive s2 /\
        file s2 = Some f' /\ logs s2 = Some [[]]) /\
  (forall (w : os) (self self' : t) (sleeps : list Q),
      iteration literal_eval w self = Next self' sleeps ->
      (opens w self ->
       logs self' = Some [[]] /\
       exists f', open_ w = inr f' /\ file self' = Some f') /\
      (~ opens w self ->
       forall rs, logs self = Some rs ->
                  exists rs', logs self' = Some rs' /\ appended rs rs')).
Proof.
  split.
  - intros self R f f' w1 w2 fails Hrun Hf Hl Hs1 Hn Hfails Hs2 Ho.
    exists (set_file None self), (opened f' (set_file None self)).
    assert (Hdrop : forall rest,
               loop literal_eval (w1 :: fails ++ rest) self
               = loop literal_eval rest (set_file None self)).
    { intros rest. simpl. rewrite Hs1, Hrun, (iteration_unlinked w1 self f Hf Hn).
      apply loop_missing; [exact Hrun | reflexivity | exact Hfails]. }
    repeat split.
    + rewrite <- (app_nil_r fails). apply Hdrop.
    + exact Hl.
    + rewrite Hdrop. cbn [loop]. rewrite Hs2.
      change (running (set_file None self)) with (running self). rewrite Hrun.
      unfold iteration. cbn [file set_file]. rewrite Ho. reflexivity.
  - intros w self self' sleeps Hit. split.
    + intros [Hf [f' Ho]]. unfold iteration in Hit. rewrite Hf, Ho in Hit.
      injection Hit as <- _. simpl. split; [reflexivity | eauto].
    + intros Hno rs Hl. exact (iteration_appends w self self' sleeps rs Hit Hno Hl).
Qed.

(** C7. Idempotent no-op reads: on an open, linked handle at the end of the
    available data an iteration leaves the whole state, run list included, as
    it was and pauses once for 0.1 s; however often the poll is repeated, the
    thread is still alive in the same state. *)
Theorem noop_reads :
  forall (self : t) (f : file_object),
    file self = Some f ->
    (forall w, idle w -> iteration literal_eval w self = Next self [0.1]) /\
    (forall ws, running self = true -> Forall idle ws ->
                loop literal_eval ws self = Alive self).
Proof.
  intros self f Hf. split.
  - intros w [[_ Hn] Hl]. exact (iteration_eof w self f Hf Hn Hl).
  - intros ws Hrun Hall. induction Hall as [|w ws [[Hstop Hn] Hl] _ IH].
    + reflexivity.
    + simpl. rewrite Hstop, Hrun, (iteration_eof w self f Hf Hn Hl). exact IH.
Qed.

End Tailer.

(** *** The tailer on text *)

Lemma example_lines_well_formed :
  Forall (well_formed literal_eval_frag) example_lines.
Proof.
  repeat constructor; intros H; try discriminate H.
  - exists (-1). reflexivity.
  - exists (-3 # 2). reflexivity.
  - exists (-9 # 10). reflexivity.
Defined.

Lemma reads_polling (lines : list string) : Forall polling (map read lines).
Proof.
  induction lines; constructor; [split; [reflexivity | discriminate] | assumption].
Defined.

(** The end-to-end example: three runs, the first one empty. *)
Lemma run_segmentation_witness :
  (exists self' runs,
      loop literal_eval_frag (map read example_lines) example_state = Alive self' /\
      logs self' = Some [[]; [VNum (-1); VNum (-3 # 2)]; [VNum (-9 # 10)]] /\
      numeric [[]; [VNum (-1); VNum (-3 # 2)]; [VNum (-9 # 10)]] = Some runs /\
      List.length runs = 3%nat) /\
  (forall (w : os) (s : t) (g : file_object),
      file s = Some g -> st_nlink w <> 0%nat ->
      startswith (readline w) "{" = false ->
      startswith (readline w) "#" = false ->
      exists sleeps, iteration literal_eval_frag w s = Next s sleeps).
Proof.
  exact (run_segmentation literal_eval_frag
           (set_running true (init "vqe_stream.json")) 3%nat
           (map read example_lines) eq_refl (reads_polling example_lines)
           example_lines_well_formed).
Defined.

(** C4 as stated fails: an empty mapping has no [energy], the look-up raises
    [KeyError] and the thread ends before the next line is read; and a
    mapping whose [energy] is a string gets that string into the run list. *)
Lemma malformed_line_kills_thread :
  loop literal_eval_frag
       [read ("{}" ++ nl)%string; read ("#" ++ nl)%string] example_state
  = Died KeyError example_state /\
  loop literal_eval_frag [read ("{'energy': 'x'}" ++ nl)%string] example_state
  = Alive (set_logs (Some [[VStr "x"]]) example_state).
Proof.
  split; reflexivity.
Qed.

Lemma malformed_line_raises_witness :
  iteration literal_eval_frag (read ("{}" ++ nl)%string) example_state
  = Raise KeyError example_state /\
  forall rest,
    loop literal_eval_frag (read ("{}" ++ nl)%string :: rest) example_state
    = Died KeyError example_state.
Proof.
  refine (malformed_line_raises literal_eval_frag example_state 3%nat
            (read ("{}" ++ nl)%string) [] [] eq_refl eq_refl eq_refl _
            eq_refl eq_refl).
  simpl. lia.
Defined.

Lemma file_replacement_reset_witness :
  exists s1 s2,
    loop literal_eval_frag
         [mk_os false 0 "" (inl FileNotFoundError);
          mk_os false 0 "" (inl FileNotFoundError)]
         (set_logs (Some [[VNum (-1)]; [VNum (-2)]]) example_state)
    = Alive s1 /\
    file s1 = None /\ logs s1 = Some [[VNum (-1)]; [VNum (-2)]] /\
    loop literal_eval_frag
         (mk_os false 0 "" (inl FileNotFoundError) ::
          [mk_os false 0 "" (inl FileNotFoundError)] ++
          [mk_os false 1 "" (inr 4%nat)])
         (set_logs (Some [[VNum (-1)]; [VNum (-2)]]) example_state)
    = Alive s2 /\
    file s2 = Some 4%nat /\ logs s2 = Some [[]].
Proof.
  refine (proj1 (file_replacement_reset literal_eval_frag)
            (set_logs (Some [[VNum (-1)]; [VNum (-2)]]) example_state)
            [[VNum (-1)]; [VNum (-2)]] 3%nat 4%nat
            (mk_os false 0 "" (inl FileNotFoundError))
            (mk_os false 1 "" (inr 4%nat))
            [mk_os false 0 "" (inl FileNotFoundError)]
            _ _ _ _ _ _ _ _); try reflexivity.
  repeat constructor.
Defined.

Lemma noop_reads_witness :
  loop literal_eval_frag [read ""; read ""; read ""] example_state
  = Alive example_state.
Proof.
  refine (proj2 (noop_reads literal_eval_frag example_state 3%nat eq_refl)
            [read ""; read ""; read ""] eq_refl _).
  repeat constructor; simpl; lia.
Defined.

End DataSourceSpec.

(** ** The renderer *)

Module CURSESDisplaySpec.
Import Py CURSESDisplay.

(** *** Folding an associative operation *)

Section Fold.

Variable op : Q -> Q -> Q.
Hypothesis op_compat : forall a a' b b', a == a' -> b == b' -> op a b == op a' b'.
Hypothesis op_assoc : forall a b c, op a (op b c) == op (op a b) c.

Lemma fold_compat (l : list Q) :
  forall a b, a == b -> fold_left op l a == fold_left op l b.
Proof.
  induction l as [|x l IH]; intros a b Hab; simpl; [exact Hab|].
  apply IH. apply op_compat; [exact Hab | reflexivity].
Qed.

Lemma fold_shift (l : list Q) :
  forall m x, op m (fold_left op l x) == fold_left op l (op m x).
Proof.
  induction l as [|y l IH]; intros m x; simpl; [reflexivity|].
  rewrite IH. apply fold_compat. apply op_assoc.
Qed.

End Fold.

(** *** Python's [min] and [max] of numbers *)

Lemma min2_Qmin (a b : Q) : min2 a b == Qmin a b.
Proof.
  unfold min2, lt. destruct (Qle_bool a b) eqn:E; simpl.
  - apply Qle_bool_iff in E. symmetry. apply Q.min_l. exact E.
  - assert (H : ~ a <= b) by (rewrite <- Qle_bool_iff, E; discriminate).
    apply Qnot_le_lt in H. symmetry. apply Q.min_r. apply Qlt_le_weak. exact H.
Qed.

Lemma max2_Qmax (a b : Q) : max2 a b == Qmax a b.
Proof.
  unfold max2, lt. destruct (Qle_bool b a) eqn:E; simpl.
  - apply Qle_bool_iff in E. symmetry. apply Q.max_l. exact E.
  - assert (H : ~ b <= a) by (rewrite <- Qle_bool_iff, E; discriminate).
    apply Qnot_le_lt in H. symmetry. apply Q.max_r. apply Qlt_le_weak. exact H.
Qed.

Lemma min2_cases (a b : Q) : min2 a b = a \/ min2 a b = b.
Proof.
  unfold min2. destruct (lt b a); auto.
Qed.

Lemma max2_cases (a b : Q) : max2 a b = a \/ max2 a b = b.
Proof.
  unfold max2. destruct (lt a b); auto.
Qed.

Lemma Qmin_compat (a a' b b' : Q) : a == a' -> b == b' -> Qmin a b == Qmin a' b'.
Proof.
  intros Ha Hb. rewrite Ha, Hb. reflexivity.
Qed.

Lemma Qmax_compat (a a' b b' : Q) : a == a' -> b == b' -> Qmax a b == Qmax a' b'.
Proof.
  intros Ha Hb. rewrite Ha, Hb. reflexivity.
Qed.

Lemma min_of_least (xs : list Q) : forall x, min_of x xs == least x xs.
Proof.
  unfold min_of, least.
  induction xs as [|y xs IH]; intros x; simpl; [reflexivity|].
  rewrite IH. apply (fold_compat Qmin Qmin_compat). apply min2_Qmin.
Qed.

Lemma max_of_greatest (xs : list Q) : forall x, max_of x xs == greatest x xs.
Proof.
  unfold max_of, greatest.
  induction xs as [|y xs IH]; intros x; simpl; [reflexivity|].
  rewrite IH. apply (fold_compat Qmax Qmax_compat). apply max2_Qmax.
Qed.

Lemma min_of_in (xs : list Q) : forall x, In (min_of x xs) (x :: xs).
Proof.
  unfold min_of.
  induction xs as [|y xs IH]; intros x; simpl; [auto|].
  destruct (IH (min2 x y)) as [H|H]; [|auto].
  rewrite <- H. destruct (min2_cases x y) as [-> | ->]; auto.
Qed.

Lemma max_of_in (xs : list Q) : forall x, In (max_of x xs) (x :: xs).
Proof.
  unfold max_of.
  induction xs as [|y xs IH]; intros x; simpl; [auto|].
  destruct (IH (max2 x y)) as [H|H]; [|auto].
  rewrite <- H. destruct (max2_cases x y) as [-> | ->]; auto.
Qed.

(** Taking one more run into the running minimum or maximum. *)
Lemma min2_run (m x : Q) (xs : list Q) :
  min2 m (min_of x xs) == least m (x :: xs).
Proof.
  rewrite min2_Qmin, min_of_least. unfold least. simpl.
  apply (fold_shift Qmin Qmin_compat Q.min_assoc).
Qed.

Lemma max2_run (m x : Q) (xs : list Q) :
  max2 m (max_of x xs) == greatest m (x :: xs).
Proof.
  rewrite max2_Qmax, max_of_greatest. unfold greatest. simpl.
  apply (fold_shift Qmax Qmax_compat Q.max_assoc).
Qed.

Lemma least_app (l l' : list Q) (m : Q) :
  least m (l ++ l') = least (least m l) l'.
Proof.
  unfold least. apply fold_left_app.
Qed.

Lemma greatest_app (l l' : list Q) (m : Q) :
  greatest m (l ++ l') = greatest (greatest m l) l'.
Proof.
  unfold greatest. apply fold_left_app.
Qed.

Lemma least_le_seed (l : list Q) : forall m, least m l <= m.
Proof.
  unfold least. induction l as [|x l IH]; intros m; simpl.
  - apply Qle_refl.
  - eapply Qle_trans; [apply IH | apply Q.le_min_l].
Qed.

Lemma least_le_member (l : list Q) : forall m x, In x l -> least m l <= x.
Proof.
  unfold least. induction l as [|y l IH]; intros m x Hin; simpl.
  - destruct Hin.
  - destruct Hin as [-> | Hin].
    + eapply Qle_trans; [apply (least_le_seed l) | apply Q.le_min_r].
    + apply IH. exact Hin.
Qed.

Lemma seed_le_greatest (l : list Q) : forall m, m <= greatest m l.
Proof.
  unfold greatest. induction l as [|x l IH]; intros m; simpl.
  - apply Qle_refl.
  - eapply Qle_trans; [apply Q.le_max_l | apply IH].
Qed.

Lemma member_le_greatest (l : list Q) : forall m x, In x l -> x <= greatest m l.
Proof.
  unfold greatest. induction l as [|y l IH]; intros m x Hin; simpl.
  - destruct Hin.
  - destruct Hin as [-> | Hin].
    + eapply Qle_trans; [apply Q.le_max_r | apply (seed_le_greatest l)].
    + apply IH. exact Hin.
Qed.

(** *** The loop of [draw_stats] *)

Lemma stats_loop_min (n : nat) (ls : list (list Q)) :
  forall i fe m,
    snd (fold_left (stats_step n) (enumerate_from i ls) (fe, m))
    == least m (List.concat ls).
Proof.
  induction ls as [|log rest IH]; intros i fe m; simpl; [reflexivity|].
  destruct log as [|x xs]; [apply IH|].
  rewrite least_app.
  destruct (negb (Z.of_nat i =? Z.of_nat n - 1)%Z); rewrite IH;
    apply (fold_compat Qmin Qmin_compat); apply min2_run.
Qed.

Lemma stats_loop_member (n : nat) (ls : list (list Q)) :
  forall i fe m,
    let m' := snd (fold_left (stats_step n) (enumerate_from i ls) (fe, m)) in
    m' = m \/ In m' (List.concat ls).
Proof.
  induction ls as [|log rest IH]; intros i fe m; simpl; [auto|].
  destruct log as [|x xs]; [apply IH|].
  assert (Hm : min2 m (min_of x xs) = m \/ In (min2 m (min_of x xs)) (x :: xs)).
  { destruct (min2_cases m (min_of x xs)) as [-> | ->];
      [auto | right; apply min_of_in]. }
  destruct (negb (Z.of_nat i =? Z.of_nat n - 1)%Z);
    match goal with
    | |- context [fold_left _ _ (?fe', _)] =>
        destruct (IH (S i) fe' (min2 m (min_of x xs))) as [H|H]
    end;
    try (right; apply (in_or_app (x :: xs)); right; exact H);
    rewrite H; destruct Hm as [Hm|Hm]; auto;
    right; apply (in_or_app (x :: xs)); left; exact Hm.
Qed.

Lemma stats_loop_final (n : nat) (ls : list (list Q)) :
  forall i fe m,
    n = (i + List.length ls)%nat ->
    fst (fold_left (stats_step n) (enumerate_from i ls) (fe, m))
    = fe ++ minima (finished ls).
Proof.
  induction ls as [|log rest IH]; intros i fe m Hn; simpl.
  - symmetry. apply app_nil_r.
  - simpl in Hn. destruct rest as [|log' rest'].
    + simpl. destruct log as [|x xs]; simpl; [symmetry; apply app_nil_r|].
      destruct (Z.eqb_spec (Z.of_nat i) (Z.of_nat n - 1)) as [_|Hne];
        [symmetry; apply app_nil_r | simpl in Hn; lia].
    + destruct log as [|x xs].
      * rewrite IH by lia. reflexivity.
      * destruct (Z.eqb_spec (Z.of_nat i) (Z.of_nat n - 1)) as [He|_];
          [simpl in Hn; lia|].
        cbn [negb]. rewrite IH by lia. rewrite <- app_assoc. reflexivity.
Qed.

(** What [draw_stats] reports for a run list that is not empty: the number
    of runs less one, the least of 0 and all samples, and the mean and the
    standard deviation of the minima of the finished runs that have a sample
    when there are two of them or more. *)
Lemma draw_stats_reports (r : list Q) (rs : list (list Q)) :
  let ls := r :: rs in
  let ms := minima (finished ls) in
  exists min_,
    draw_stats (Some ls)
    = Stats {| nruns := Z.of_nat (List.length ls) - 1;
               mine := min_;
               mean := if (1 <? List.length ms)%nat
                       then Num (np_mean ms) else Str "Insufficent data";
               var := if (1 <? List.length ms)%nat
                      then np_std ms else Str "Insufficent data" |} /\
    min_ == least 0 (List.concat ls) /\
    (min_ = 0 \/ In min_ (List.concat ls)).
Proof.
  cbv zeta. unfold draw_stats, enumerate.
  pose proof (stats_loop_min (List.length (r :: rs)) (r :: rs) 0 [] 0) as Hmin.
  pose proof (stats_loop_member (List.length (r :: rs)) (r :: rs) 0 [] 0) as Hin.
  pose proof (stats_loop_final (List.length (r :: rs)) (r :: rs) 0 [] 0 eq_refl)
    as Hfin.
  destruct (fold_left (stats_step (List.length (r :: rs)))
                      (enumerate_from 0 (r :: rs)) ([], 0))
    as [final_es min_].
  cbv zeta in Hin. cbn [fst snd app] in Hmin, Hin, Hfin.
  subst final_es. exists min_. auto.
Qed.

(** C10. The displayed minimum of a run list that is not empty is the least
    of 0, the seed of the accumulator, and all samples, that is min(0, minimum
    over all samples) when there is a sample; it is 0 or one of the samples,
    is below every sample and is never positive. *)
Theorem displayed_minimum :
  forall ls : list (list Q),
    ls <> [] ->
    exists s,
      draw_stats (Some ls) = Stats s /\
      mine s == least 0 (List.concat ls) /\
      (forall x xs, List.concat ls = x :: xs -> mine s == Qmin 0 (least x xs)) /\
      (mine s = 0 \/ In (mine s) (List.concat ls)) /\
      (forall x, In x (List.concat ls) -> mine s <= x) /\
      mine s <= 0.
Proof.
  intros [|r rs] Hne; [congruence|].
  destruct (draw_stats_reports r rs) as (min_ & Hd & Hmin & Hin).
  eexists. split; [exact Hd|]. cbn [mine]. repeat split.
  - exact Hmin.
  - intros x xs E. rewrite Hmin, E. unfold least. simpl.
    symmetry. apply (fold_shift Qmin Qmin_compat Q.min_assoc).
  - exact Hin.
  - intros x Hx. rewrite Hmin. apply least_le_member. exact Hx.
  - rewrite Hmin. apply least_le_seed.
Qed.

(** Two runs of positive energies: the panel shows 0. *)
Lemma displayed_minimum_witness :
  exists s,
    draw_stats (Some [[0.5; 0.25]; [2]]) = Stats s /\
    mine s == least 0 [0.5; 0.25; 2] /\
    (forall x xs, [0.5; 0.25; 2] = x :: xs -> mine s == Qmin 0 (least x xs)) /\
    (mine s = 0 \/ In (mine s) [0.5; 0.25; 2]) /\
    (forall x, In x [0.5; 0.25; 2] -> mine s <= x) /\
    mine s <= 0.
Proof.
  apply (displayed_minimum [[0.5; 0.25]; [2]]). discriminate.
Defined.

(** C2, at a log whose only sample is the positive energy 0.5: the panel
    reports the minimum 0, which is no sample and lies below the only one;
    the minimum over all samples is 0.5. *)
Lemma positive_sample_minimum :
  exists s,
    draw_stats (Some [[0.5]]) = Stats s /\
    mine s = 0 /\
    ~ In (mine s) (List.concat [[0.5]]) /\
    (forall x, In x (List.concat [[0.5]]) -> mine s < x).
Proof.
  eexists. split; [reflexivity|]. cbn [mine]. repeat split.
  - intros [H|[]]. discriminate H.
  - intros x [<-|[]]. reflexivity.
Qed.

(** C3, at the run list the tailer builds for the end-to-end example (one
    finished run with samples): the count is the length less one and the mean
    and variance fields hold a text, but that text is spelt
    [Insufficent data], not [Insufficient data]. *)
Lemma insufficient_data_text :
  draw_stats (Some [[]; [-1.0; -1.5]; [-0.9]])
  = Stats {| nruns := 2; mine := -1.5;
             mean := Str "Insufficent data"; var := Str "Insufficent data" |} /\
  Str "Insufficent data" <> Str "Insufficient data".
Proof.
  split; [reflexivity | discriminate].
Qed.

(** *** The loop of [draw_graphs] *)

Lemma graphs_loop_bounds (self : t) (n : nat) (ls : list (list Q)) :
  forall i pl lo hi,
    let r := fold_left (graphs_step self n) (enumerate_from i ls) (pl, lo, hi) in
    snd (fst r) == least lo (List.concat ls) /\
    snd r == greatest hi (List.concat ls).
Proof.
  induction ls as [|log rest IH]; intros i pl lo hi; simpl.
  - split; reflexivity.
  - destruct log as [|x xs]; [apply IH|].
    rewrite least_app, greatest_app.
    destruct (IH (S i) (pl ++ [(getmarker self n i, x :: xs)])
                 (min2 lo (min_of x xs)) (max2 hi (max_of x xs))) as [Hlo Hhi].
    simpl in Hlo, Hhi. rewrite Hlo, Hhi. split.
    + apply (fold_compat Qmin Qmin_compat). apply min2_run.
    + apply (fold_compat Qmax Qmax_compat). apply max2_run.
Qed.

Lemma graphs_loop_member (self : t) (n : nat) (ls : list (list Q)) :
  forall i pl lo hi,
    let r := fold_left (graphs_step self n) (enumerate_from i ls) (pl, lo, hi) in
    (snd (fst r) = lo \/ In (snd (fst r)) (List.concat ls)) /\
    (snd r = hi \/ In (snd r) (List.concat ls)).
Proof.
  induction ls as [|log rest IH]; intros i pl lo hi; simpl; [auto|].
  destruct log as [|x xs]; [apply IH|].
  destruct (IH (S i) (pl ++ [(getmarker self n i, x :: xs)])
               (min2 lo (min_of x xs)) (max2 hi (max_of x xs))) as [Hlo Hhi].
  simpl in Hlo, Hhi. split.
  - destruct Hlo as [Hlo|Hlo];
      [|right; apply (in_or_app (x :: xs)); right; exact Hlo].
    rewrite Hlo. destruct (min2_cases lo (min_of x xs)) as [-> | ->]; [auto|].
    right. apply (in_or_app (x :: xs)). left. apply min_of_in.
  - destruct Hhi as [Hhi|Hhi];
      [|right; apply (in_or_app (x :: xs)); right; exact Hhi].
    rewrite Hhi. destruct (max2_cases hi (max_of x xs)) as [-> | ->]; [auto|].
    right. apply (in_or_app (x :: xs)). left. apply max_of_in.
Qed.

(** C8, as the code has it.  The bounds given to the chart are the least of
    -1.7 and all samples and the greatest of -1.6 and all samples: the default
    range is always part of the range shown, which is widened to hold every
    sample, and is the whole range when there is no sample. *)
Theorem chart_range :
  forall (self : t) (height width : Z) (ls : list (list Q)),
    ls <> [] ->
    exists fig,
      draw_graphs self height width (Some ls) = Some fig /\
      fst (ylim fig) == least (-1.7) (List.concat ls) /\
      snd (ylim fig) == greatest (-1.6) (List.concat ls) /\
      (List.concat ls = [] -> ylim fig = (-1.7, -1.6)) /\
      (forall x, In x (List.concat ls) ->
                 fst (ylim fig) <= x /\ x <= snd (ylim fig)) /\
      fst (ylim fig) <= -1.7 /\ -1.6 <= snd (ylim fig).
Proof.
  intros self height width [|r rs] Hne; [congruence|].
  unfold draw_graphs, enumerate.
  destruct (graphs_loop_bounds self (List.length (r :: rs)) (r :: rs)
              0 [] (-1.7) (-1.6)) as [Hlo Hhi].
  destruct (graphs_loop_member self (List.length (r :: rs)) (r :: rs)
              0 [] (-1.7) (-1.6)) as [Mlo Mhi].
  destruct (fold_left (graphs_step self (List.length (r :: rs)))
                      (enumerate_from 0 (r :: rs)) ([], -1.7, -1.6))
    as [[plotted lo] hi].
  cbn [fst snd] in Hlo, Hhi, Mlo, Mhi.
  eexists. split; [reflexivity|]. cbn [ylim fst snd]. repeat split.
  - exact Hlo.
  - exact Hhi.
  - intros E. rewrite E in Mlo, Mhi.
    destruct Mlo as [-> | []]. destruct Mhi as [-> | []]. reflexivity.
  - rewrite Hlo. apply least_le_member. assumption.
  - rewrite Hhi. apply member_le_greatest. assumption.
  - rewrite Hlo. apply least_le_seed.
  - rewrite Hhi. apply seed_le_greatest.
Qed.

Lemma chart_range_witness :
  exists fig,
    draw_graphs init 24 80 (Some [[-1.0; -1.5]; [-0.9]]) = Some fig /\
    fst (ylim fig) == least (-1.7) [-1.0; -1.5; -0.9] /\
    snd (ylim fig) == greatest (-1.6) [-1.0; -1.5; -0.9] /\
    ([-1.0; -1.5; -0.9] = [] -> ylim fig = (-1.7, -1.6)) /\
    (forall x, In x [-1.0; -1.5; -0.9] ->
               fst (ylim fig) <= x /\ x <= snd (ylim fig)) /\
    fst (ylim fig) <= -1.7 /\ -1.6 <= snd (ylim fig).
Proof.
  apply (chart_range init 24 80 [[-1.0; -1.5]; [-0.9]]). discriminate.
Defined.

(** C8 as stated fails: with the single sample -1.65 the chart is drawn on
    the default range from -1.7 to -1.6, and neither bound is the sample. *)
Lemma default_range_with_data :
  exists fig,
    draw_graphs init 24 80 (Some [[-1.65]]) = Some fig /\
    ylim fig = (-1.7, -1.6) /\
    least (-1.65) [] = -1.65 /\ greatest (-1.65) [] = -1.65 /\
    ~ fst (ylim fig) == -1.65 /\ ~ snd (ylim fig) == -1.65.
Proof.
  eexists. split; [reflexivity|]. cbn [ylim fst snd].
  repeat split; discriminate.
Qed.

(** *** Keys *)

(** C6, as the code has it.  On [q] the loop is left at once through
    [break]: nothing is drawn in that iteration, no later answer is consumed
    and the state, liveness flag included, stays as it was.  On [n] the
    numerical-marker option is negated before the panels of this iteration
    are drawn.  Any other key leaves the state as it was. *)
Theorem key_handling :
  forall (w : tty) (self : t),
    let drawn s :=
      Some {| chart := draw_graphs s (fst (maxyx w)) (snd (maxyx w)) (logs w);
              stats_panel := draw_stats (logs w) |} in
    (getch w = ord_q ->
     iteration w self = (Break, self, None, []) /\
     forall rest, stop w = false -> running self = true ->
                  loop (w :: rest) self = (Left self, [])) /\
    (getch w = ord_n ->
     iteration w self
     = (Continue, toggle_markers self, drawn (toggle_markers self), [0.1])) /\
    (getch w <> ord_q -> getch w <> ord_n ->
     iteration w self = (Continue, self, drawn self, [0.1])).
Proof.
  intros w self drawn. split; [|split].
  - intros Hq.
    assert (Hit : iteration w self = (Break, self, None, []))
      by (unfold iteration; rewrite Hq; reflexivity).
    split; [exact Hit|].
    intros rest Hstop Hrun. simpl. rewrite Hstop, Hrun, Hit. reflexivity.
  - intros Hn. unfold iteration. rewrite Hn. reflexivity.
  - intros Hq Hn. unfold iteration.
    apply Z.eqb_neq in Hq. apply Z.eqb_neq in Hn. rewrite Hq, Hn.
    rewrite andb_false_r. reflexivity.
Qed.

Lemma key_handling_witness :
  iteration (mk_tty false ord_q (24, 80)%Z (Some [[-1.0]])) (set_running true init)
  = (Break, set_running true init, None, []) /\
  forall rest,
    loop (mk_tty false ord_q (24, 80)%Z (Some [[-1.0]]) :: rest)
         (set_running true init)
    = (Left (set_running true init), []).
Proof.
  destruct (proj1 (key_handling (mk_tty false ord_q (24, 80)%Z (Some [[-1.0]]))
                                (set_running true init)) eq_refl) as [Hit Hloop].
  split; [exact Hit|]. intros rest. apply Hloop; reflexivity.
Defined.

(** C6 as stated fails: after [q] the liveness flag is still set, and the
    iteration draws nothing. *)
Lemma quit_keeps_flag :
  exists self',
    iteration (mk_tty false ord_q (24, 80)%Z (Some [[-1.0]]))
              (set_running true init)
    = (Break, self', None, []) /\
    running self' = true.
Proof.
  eexists. split; reflexivity.
Qed.

End CURSESDisplaySpec.

(** ** The controller *)

Module MainSpec.
Import Main.

(** C9. When stdin is no terminal the program prints its message and exits
    with status 1, whatever the arguments and the outcome of the look-up; no
    worker is constructed or started. *)
Theorem non_interactive_refusal :
  forall (argv : list string) (get_fname : Py.exn + string),
    main false argv get_fname = [Print "please run interactively."; Exit 1] /\
    existsb touches_worker (main false argv get_fname) = false.
Proof.
  intros argv get_fname. split; reflexivity.
Qed.

End MainSpec.

(** ** From the log to the panel *)

Module EndToEnd.
Import Py.

(** The five lines of the example give three runs, the first one empty; two
    runs count as completed, the least energy is -1.5 and one finished run
    with samples is too few for a mean. *)
Example tail_then_draw :
  exists self' runs,
    DataSource.loop literal_eval_frag
      (map DataSource.read DataSource.example_lines) DataSource.example_state
    = DataSource.Alive self' /\
    option_map DataSource.numeric (DataSource.logs self') = Some (Some runs) /\
    runs = [[]; [-1; -3 # 2]; [-9 # 10]] /\
    CURSESDisplay.draw_stats (Some runs)
    = CURSESDisplay.Stats
        {| CURSESDisplay.nruns := 2;
           CURSESDisplay.mine := -3 # 2;
           CURSESDisplay.mean := CURSESDisplay.Str "Insufficent data";
           CURSESDisplay.var := CURSESDisplay.Str "Insufficent data" |}.
Proof.
  eexists. eexists. repeat split.
Qed.

End EndToEnd.

(** ** More on the tailer: invariants, causes of death, shutdown, replacement *)

Module DataSourceLaws.
Import Py DataSource Aux DataSourceSpec.

Section Laws.

Variable literal_eval : string -> exn + value.

(** The loop on two batches of answers is the loop on the first, carried on
    with the second from the state reached if the thread is still alive. *)
Lemma loop_app (ws ws' : list os) :
  forall self,
    loop literal_eval (ws ++ ws') self
    = match loop literal_eval ws self with
      | Alive s => loop literal_eval ws' s
      | th => th
      end.
Proof.
  induction ws as [|w ws IH]; intros self; simpl; [reflexivity|].
  destruct (running (if stop w then set_running false self else self));
    [|reflexivity].
  destruct (iteration literal_eval w _) as [s sl | e s]; [apply IH | reflexivity].
Qed.

Lemma sound_set_running (b : bool) (self : t) :
  sound self -> sound (set_running b self).
Proof.
  unfold sound. simpl. auto.
Qed.

Lemma snoc_not_nil {A : Type} (l : list A) (x : A) : l ++ [x] <> [].
Proof.
  destruct l; discriminate.
Qed.

(** A normal iteration keeps the run list sound and touches neither the file
    name, nor [Nruns], nor the liveness flag. *)
Lemma iteration_keeps (w : os) (self self' : t) (sleeps : list Q) :
  sound self ->
  iteration literal_eval w self = Next self' sleeps ->
  sound self' /\ fname self' = fname self /\ Nruns self' = Nruns self /\
  running self' = running self.
Proof.
  unfold iteration. intros Hs Hit.
  destruct (file self) as [f|] eqn:Hf.
  - destruct (st_nlink w =? 0)%nat.
    { injection Hit as <- _. split; [|auto].
      unfold sound in *. cbn [logs file set_file].
      destruct (logs self); auto. }
    destruct (String.eqb (readline w) "").
    { injection Hit as <- _. auto. }
    destruct (startswith (readline w) "{").
    { destruct (energy_of literal_eval (readline w)) as [e|v]; [discriminate|].
      destruct (logs self) as [[|r rs]|]; try discriminate.
      unfold append_sample in Hit. injection Hit as <- _.
      split; [|auto]. unfold sound. cbn [logs set_logs]. apply snoc_not_nil. }
    destruct (startswith (readline w) "#").
    { destruct (logs self) as [rs|]; [|discriminate].
      unfold append_run in Hit. injection Hit as <- _.
      split; [|auto]. unfold sound. cbn [logs set_logs]. apply snoc_not_nil. }
    injection Hit as <- _. auto.
  - destruct (open_ w) as [e|f'].
    + destruct e; try discriminate. injection Hit as <- _. auto.
    + injection Hit as <- _. split; [|auto].
      unfold sound. cbn [logs set_logs]. discriminate.
Qed.

(** On a sound state an iteration raises only what [open], [literal_eval] or
    the look-up of [energy] raise, and leaves the state as it was. *)
Lemma iteration_raise_cause (w : os) (self self' : t) (e : exn) :
  sound self ->
  iteration literal_eval w self = Raise e self' ->
  self' = self /\ fails_with literal_eval e w.
Proof.
  unfold iteration, fails_with. intros Hs Hit.
  destruct (file self) as [f|] eqn:Hf.
  - destruct (st_nlink w =? 0)%nat; [discriminate|].
    destruct (String.eqb (readline w) ""); [discriminate|].
    assert (Hl : exists r rs, logs self = Some (r :: rs)).
    { unfold sound in Hs. destruct (logs self) as [[|r rs]|]; try congruence.
      eauto. }
    destruct Hl as (r & rs & Hl). rewrite Hl in Hit.
    destruct (startswith (readline w) "{") eqn:Ho.
    { destruct (energy_of literal_eval (readline w)) as [e'|v];
        [|discriminate].
      injection Hit as <- <-. auto. }
    destruct (startswith (readline w) "#"); discriminate.
  - destruct (open_ w) as [e'|f']; [|discriminate].
    destruct e'; try discriminate; injection Hit as <- <-;
      (split; [reflexivity | left; split; [reflexivity | discriminate]]).
Qed.

Lemma loop_keeps (ws : list os) :
  forall self,
    sound self ->
    sound (state_of (loop literal_eval ws self)) /\
    fname (state_of (loop literal_eval ws self)) = fname self /\
    Nruns (state_of (loop literal_eval ws self)) = Nruns self.
Proof.
  induction ws as [|w ws IH]; intros self Hs; simpl; [auto|].
  set (self1 := if stop w then set_running false self else self).
  assert (H1 : sound self1 /\ fname self1 = fname self /\ Nruns self1 = Nruns self).
  { subst self1. destruct (stop w); auto using sound_set_running. }
  destruct H1 as (Hs1 & Hf1 & Hn1).
  destruct (running self1); [|simpl; auto].
  destruct (iteration literal_eval w self1) as [s sl | e s] eqn:Hit.
  - destruct (iteration_keeps w self1 s sl Hs1 Hit) as (Hs' & Hf' & Hn' & _).
    destruct (IH s Hs') as (A & B & C).
    repeat split; [exact A | congruence | congruence].
  - destruct (iteration_raise_cause w self1 s e Hs1 Hit) as [-> _].
    simpl. auto.
Qed.


(** X1. Whatever the operating system answers and whatever the lines hold,
    a tailer started on a fresh [DataSource] is always in a state where the
    run list is absent only if no file was opened yet and otherwise has a
    last run, and [fname] and [Nruns] are never written. *)
Theorem run_keeps_sound :
  forall (ws : list os) (name : string),
    sound (state_of (run literal_eval ws (init name))) /\
    fname (state_of (run literal_eval ws (init name))) = name /\
    Nruns (state_of (run literal_eval ws (init name))) = 0%Z.
Proof.
  intros ws name. unfold run.
  apply (loop_keeps ws (set_running true (init name))). reflexivity.
Qed.


(** X3. Shutdown: when the liveness flag is cleared after some lines were
    read, the thread returns at the next loop test; the run list holds the
    lines read until then and no later answer is looked at. *)
Theorem stop_returns :
  forall (self : t) (f : file_object) (ws rest : list os) (w : os),
    running self = true ->
    Forall polling ws ->
    Forall (well_formed literal_eval) (map readline ws) ->
    stop w = true ->
    exists s,
      loop literal_eval (ws ++ w :: rest) (opened f self) = Returned s /\
      running s = false /\
      logs s = Some (segmented literal_eval (map readline ws)).
Proof.
  intros self f ws rest w Hrun Hp Hwf Hstop.
  destruct (loop_reads literal_eval f ws (opened f self) [] [] Hrun eq_refl
              eq_refl Hp Hwf)
    as (s' & p & ps & Hloop & _ & _ & Hseg & Hl).
  exists (set_running false s'). rewrite loop_app, Hloop. simpl.
  rewrite Hstop. simpl. repeat split. rewrite Hl, Hseg. reflexivity.
Qed.

(** X4. After a replacement of the file the run list holds the lines of the
    new file only: whatever run list R was there when the old handle was
    found unlinked, once the path opens again and lines are read the run list
    is the segmentation of those lines. *)
Theorem replaced_file_only :
  forall (self : t) (R : list (list value)) (f f' : file_object)
         (w1 w2 : os) (fails ws : list os),
    running self = true -> file self = Some f -> logs self = Some R ->
    stop w1 = false -> st_nlink w1 = 0%nat ->
    Forall missing fails ->
    stop w2 = false -> open_ w2 = inr f' ->
    Forall polling ws ->
    Forall (well_formed literal_eval) (map readline ws) ->
    exists s,
      loop literal_eval (w1 :: fails ++ w2 :: ws) self = Alive s /\
      file s = Some f' /\
      logs s = Some (segmented literal_eval (map readline ws)).
Proof.
  intros self R f f' w1 w2 fails ws Hrun Hf Hl Hs1 Hn Hfails Hs2 Ho Hp Hwf.
  destruct (loop_reads literal_eval f' ws (opened f' (set_file None self))
              [] [] Hrun eq_refl eq_refl Hp Hwf)
    as (s & p & ps & Hloop & _ & Hf' & Hseg & Hl').
  exists s. repeat split; [|exact Hf' | rewrite Hl', Hseg; reflexivity].
  simpl. rewrite Hs1, Hrun, (iteration_unlinked literal_eval w1 self f Hf Hn).
  rewrite (loop_missing literal_eval fails (w2 :: ws) (set_file None self)
             Hrun eq_refl Hfails).
  cbn [loop]. rewrite Hs2.
  change (running (set_file None self)) with (running self). rewrite Hrun.
  unfold iteration at 1. cbn [file set_file]. rewrite Ho. exact Hloop.
Qed.

End Laws.


Lemma stop_returns_witness :
  exists s,
    loop literal_eval_frag
         (map read example_lines ++ stop_request :: [read ("#" ++ nl)%string])
         example_state
    = Returned s /\
    running s = false /\
    logs s = Some [[]; [VNum (-1); VNum (-3 # 2)]; [VNum (-9 # 10)]].
Proof.
  exact (stop_returns literal_eval_frag
           (set_running true (init "vqe_stream.json")) 3%nat
           (map read example_lines) [read ("#" ++ nl)%string] stop_request
           eq_refl (reads_polling example_lines) example_lines_well_formed
           eq_refl).
Defined.

Lemma replaced_file_only_witness :
  exists s,
    loop literal_eval_frag
         (mk_os false 0 "" (inl FileNotFoundError) ::
          [mk_os false 0 "" (inl FileNotFoundError)] ++
          mk_os false 1 "" (inr 4%nat) :: map read example_lines)
         (set_logs (Some [[VNum 7]; [VNum 8]]) example_state)
    = Alive s /\
    file s = Some 4%nat /\
    logs s = Some [[]; [VNum (-1); VNum (-3 # 2)]; [VNum (-9 # 10)]].
Proof.
  refine (replaced_file_only literal_eval_frag
            (set_logs (Some [[VNum 7]; [VNum 8]]) example_state)
            [[VNum 7]; [VNum 8]] 3%nat 4%nat
            (mk_os false 0 "" (inl FileNotFoundError))
            (mk_os false 1 "" (inr 4%nat))
            [mk_os false 0 "" (inl FileNotFoundError)]
            (map read example_lines)
            eq_refl eq_refl eq_refl eq_refl eq_refl _ eq_refl eq_refl
            (reads_polling example_lines) example_lines_well_formed).
  repeat constructor.
Defined.

End DataSourceLaws.

(** ** More on the renderer: series, markers, key sequences, statistics *)

Module CURSESDisplayLaws.
Import Py CURSESDisplay CURSESDisplaySpec.

(** *** The series of the chart *)

Lemma graphs_loop_series (self : t) (n : nat) (ls : list (list Q)) :
  forall i pl lo hi,
    fst (fst (fold_left (graphs_step self n) (enumerate_from i ls) (pl, lo, hi)))
    = pl ++ map (fun il => (getmarker self n (fst il), snd il))
                (filter (fun il => has_sample (snd il)) (enumerate_from i ls)).
Proof.
  induction ls as [|log rest IH]; intros i pl lo hi; simpl.
  - symmetry. apply app_nil_r.
  - destruct log as [|x xs]; simpl; [apply IH|].
    rewrite IH, <- app_assoc. reflexivity.
Qed.

Lemma enumerate_samples (ls : list (list Q)) :
  forall i,
    map snd (filter (fun il : nat * list Q => has_sample (snd il))
                    (enumerate_from i ls))
    = filter has_sample ls.
Proof.
  induction ls as [|log rest IH]; intros i; simpl; [reflexivity|].
  destruct (has_sample log); simpl; rewrite IH; reflexivity.
Qed.

Lemma concat_samples (ls : list (list Q)) :
  List.concat (filter has_sample ls) = List.concat ls.
Proof.
  induction ls as [|log rest IH]; simpl; [reflexivity|].
  destruct log as [|x xs]; simpl; rewrite IH; reflexivity.
Qed.

(** X5. The series handed to the plotting library are the runs that have a
    sample, in order and unchanged, each under the marker of its index in the
    whole run list; runs without a sample are skipped without renumbering,
    so every sample is plotted once. *)
Theorem plotted_series :
  forall (self : t) (height width : Z) (ls : list (list Q)),
    ls <> [] ->
    exists fig,
      draw_graphs self height width (Some ls) = Some fig /\
      shape fig = (width - 2, height - 3)%Z /\
      series fig
      = map (fun il => (getmarker self (List.length ls) (fst il), snd il))
            (filter (fun il => has_sample (snd il)) (enumerate ls)) /\
      map snd (series fig) = filter has_sample ls /\
      List.concat (map snd (series fig)) = List.concat ls.
Proof.
  intros self height width [|r rs] Hne; [congruence|].
  unfold draw_graphs, enumerate.
  pose proof (graphs_loop_series self (List.length (r :: rs)) (r :: rs)
                0 [] (-1.7) (-1.6)) as Hser.
  destruct (fold_left (graphs_step self (List.length (r :: rs)))
                      (enumerate_from 0 (r :: rs)) ([], -1.7, -1.6))
    as [[plotted lo] hi].
  cbn [fst snd app] in Hser. subst plotted.
  eexists. split; [reflexivity|]. cbn [shape series].
  assert (Hsnd : map snd
                   (map (fun il : nat * list Q =>
                           (getmarker self (List.length (r :: rs)) (fst il), snd il))
                        (filter (fun il => has_sample (snd il))
                                (enumerate_from 0 (r :: rs))))
                 = filter has_sample (r :: rs)).
  { rewrite map_map. cbn [snd]. apply enumerate_samples. }
  repeat split.
  - exact Hsnd.
  - rewrite Hsnd. apply concat_samples.
Qed.

Lemma plotted_series_witness :
  exists fig,
    draw_graphs init 24 80 (Some [[]; [-1.0; -1.5]; []; [-0.9]]) = Some fig /\
    shape fig = (78, 21)%Z /\
    series fig = [("1", [-1.0; -1.5]); ("_,", [-0.9])] /\
    map snd (series fig) = [[-1.0; -1.5]; [-0.9]] /\
    List.concat (map snd (series fig)) = [-1.0; -1.5; -0.9].
Proof.
  apply (plotted_series init 24 80 [[]; [-1.0; -1.5]; []; [-0.9]]). discriminate.
Defined.

(** *** Markers *)

Lemma str_inj (i j : nat) : str i = str j -> i = j.
Proof.
  unfold str. intros H. apply DecimalNat.Unsigned.to_uint_inj.
  assert (E : Some (Nat.to_uint i) = Some (Nat.to_uint j))
    by (rewrite <- !NilEmpty.usu; now rewrite H).
  now injection E.
Qed.

(** A decimal numeral is not one of the two fixed markers. *)
Lemma str_not_fixed (i : nat) : str i <> "_," /\ str i <> "_.".
Proof.
  unfold str.
  split; intros H; pose proof (NilEmpty.usu (Nat.to_uint i)) as E;
    rewrite H in E; discriminate E.
Qed.

Lemma is_last (n i : nat) :
  (Z.of_nat i =? Z.of_nat n - 1)%Z = (S i =? n)%nat.
Proof.
  destruct (Z.eqb_spec (Z.of_nat i) (Z.of_nat n - 1));
    destruct (Nat.eqb_spec (S i) n); try reflexivity; lia.
Qed.

(** X6. Without colors, the marker of the last run is the live marker and is
    given to no other run.  With numerical markers the finished runs carry
    their index in decimal, so no two runs of a chart share a marker; without
    them every finished run carries the same marker. *)
Theorem markers_tell_runs :
  forall (self : t) (n i j : nat),
    color self = false ->
    (getmarker self n i = "_," <-> S i = n) /\
    (numerical_markers self = true ->
     getmarker self n i = getmarker self n j -> i = j) /\
    (numerical_markers self = false -> S i <> n -> getmarker self n i = "_.").
Proof.
  intros self n i j Hc. unfold getmarker. rewrite Hc, !is_last.
  destruct (str_not_fixed i) as [Hi1 Hi2]. destruct (str_not_fixed j) as [Hj1 Hj2].
  split; [|split].
  - destruct (Nat.eqb_spec (S i) n) as [E|E]; [tauto|].
    destruct (numerical_markers self); split; try tauto; try congruence;
      discriminate.
  - intros ->.
    destruct (Nat.eqb_spec (S i) n) as [Ei|Ei];
      destruct (Nat.eqb_spec (S j) n) as [Ej|Ej]; intros H.
    + lia.
    + symmetry in H. tauto.
    + tauto.
    + apply str_inj. exact H.
  - intros -> E. destruct (Nat.eqb_spec (S i) n); [contradiction | reflexivity].
Qed.

Lemma markers_tell_runs_witness :
  (getmarker init 3 2 = "_," <-> 3 = 3)%nat /\
  (numerical_markers init = true ->
   getmarker init 3 2 = getmarker init 3 1 -> 2 = 1)%nat /\
  (numerical_markers init = false -> (3 <> 3)%nat -> getmarker init 3 2 = "_.").
Proof.
  exact (markers_tell_runs init 3 2 1 eq_refl).
Defined.

(** *** Sequences of keys *)

Lemma iteration_plain (w : tty) (self : t) :
  getch w <> ord_q ->
  iteration w self
  = (Continue,
     if (getch w =? ord_n)%Z then toggle_markers self else self,
     Some {| chart := draw_graphs
                        (if (getch w =? ord_n)%Z then toggle_markers self else self)
                        (fst (maxyx w)) (snd (maxyx w)) (logs w);
             stats_panel := draw_stats (logs w) |},
     [0.1]).
Proof.
  intros Hq. unfold iteration. apply Z.eqb_neq in Hq. rewrite Hq.
  rewrite andb_false_r. destruct (getch w =? ord_n)%Z; reflexivity.
Qed.

Lemma presses_n_cons (w : tty) (ws : list tty) :
  presses_n (w :: ws)
  = if (getch w =? ord_n)%Z then S (presses_n ws) else presses_n ws.
Proof.
  unfold presses_n. simpl.
  destruct (Z.eq_dec (getch w) ord_n) as [E|E].
  - apply Z.eqb_eq in E. rewrite E. reflexivity.
  - apply Z.eqb_neq in E. rewrite E. reflexivity.
Qed.

Lemma loop_plain (ws : list tty) :
  forall self,
    running self = true -> Forall plain ws ->
    exists s frames,
      (forall rest,
          loop (ws ++ rest) self
          = (fst (loop rest s), frames ++ snd (loop rest s))) /\
      running s = true /\ color s = color self /\
      numerical_markers s
      = xorb (numerical_markers self) (Nat.odd (presses_n ws)) /\
      map stats_panel frames = map (fun w => draw_stats (logs w)) ws.
Proof.
  induction ws as [|w ws IH]; intros self Hrun Hall.
  - exists self, []. repeat split; auto.
    + intros rest. simpl. destruct (loop rest self); reflexivity.
    + simpl. destruct (numerical_markers self); reflexivity.
  - inversion Hall as [|? ? [Hstop Hq] Hall']; subst.
    set (self1 := if (getch w =? ord_n)%Z then toggle_markers self else self).
    assert (Hrun1 : running self1 = true)
      by (subst self1; destruct (getch w =? ord_n)%Z; exact Hrun).
    destruct (IH self1 Hrun1 Hall') as (s & frames & Hloop & Hr & Hc & Hm & Hp).
    exists s.
    exists ({| chart := draw_graphs self1 (fst (maxyx w)) (snd (maxyx w)) (logs w);
               stats_panel := draw_stats (logs w) |} :: frames).
    repeat split.
    + intros rest. cbn [app loop]. rewrite Hstop, Hrun.
      rewrite (iteration_plain w self Hq). fold self1. rewrite Hloop.
      reflexivity.
    + exact Hr.
    + rewrite Hc. subst self1. destruct (getch w =? ord_n)%Z; reflexivity.
    + rewrite Hm, presses_n_cons. subst self1.
      destruct (getch w =? ord_n)%Z; [|reflexivity].
      rewrite Nat.odd_succ, <- Nat.negb_odd. cbn [numerical_markers toggle_markers].
      destruct (numerical_markers self), (Nat.odd (presses_n ws)); reflexivity.
    + cbn [map stats_panel]. rewrite Hp. reflexivity.
Qed.

(** X7. A sequence of iterations that nobody interrupts, ended by [q]: one
    frame is drawn per iteration before the [q], none for the [q] and none
    after it; the statistics of each frame are those of the run list read in
    that iteration; and the numerical-marker option ends negated exactly when
    [n] was pressed an odd number of times. *)
Theorem keys_until_quit :
  forall (ws rest : list tty) (w : tty) (self : t),
    running self = true -> Forall plain ws ->
    stop w = false -> getch w = ord_q ->
    exists s frames,
      loop (ws ++ w :: rest) self = (Left s, frames) /\
      List.length frames = List.length ws /\
      map stats_panel frames = map (fun w => draw_stats (logs w)) ws /\
      numerical_markers s
      = xorb (numerical_markers self) (Nat.odd (presses_n ws)) /\
      running s = true.
Proof.
  intros ws rest w self Hrun Hall Hstop Hq.
  destruct (loop_plain ws self Hrun Hall) as (s & frames & Hloop & Hr & _ & Hm & Hp).
  exists s, frames. repeat split.
  - rewrite Hloop. cbn [loop]. rewrite Hstop, Hr. unfold iteration. rewrite Hq.
    cbn. rewrite app_nil_r. reflexivity.
  - rewrite <- (length_map stats_panel), Hp, length_map. reflexivity.
  - exact Hp.
  - exact Hm.
  - exact Hr.
Qed.

Lemma keys_until_quit_witness :
  exists s frames,
    loop ([mk_tty false ord_n (24, 80)%Z None;
           mk_tty false (-1) (24, 80)%Z (Some [[]]);
           mk_tty false ord_n (24, 80)%Z (Some [[-1.0]]);
           mk_tty false ord_n (24, 80)%Z (Some [[-1.0]; []])]
          ++ mk_tty false ord_q (24, 80)%Z (Some [[-1.0]; []])
          :: [mk_tty false ord_n (24, 80)%Z None])
         (set_running true init)
    = (Left s, frames) /\
    List.length frames = 4%nat /\
    map stats_panel frames
    = [draw_stats None; draw_stats (Some [[]]); draw_stats (Some [[-1.0]]);
       draw_stats (Some [[-1.0]; []])] /\
    numerical_markers s = false /\
    running s = true.
Proof.
  refine (keys_until_quit
            [mk_tty false ord_n (24, 80)%Z None;
             mk_tty false (-1) (24, 80)%Z (Some [[]]);
             mk_tty false ord_n (24, 80)%Z (Some [[-1.0]]);
             mk_tty false ord_n (24, 80)%Z (Some [[-1.0]; []])]
            [mk_tty false ord_n (24, 80)%Z None]
            (mk_tty false ord_q (24, 80)%Z (Some [[-1.0]; []]))
            (set_running true init) eq_refl _ eq_refl eq_refl).
  repeat constructor; simpl; discriminate.
Defined.

(** *** The color flag *)

Lemma iteration_color (w : tty) (self : t) :
  color (snd (fst (fst (iteration w self)))) = color self.
Proof.
  unfold iteration. destruct (getch w =? ord_q)%Z; [reflexivity|].
  rewrite andb_false_r. destruct (getch w =? ord_n)%Z; reflexivity.
Qed.

(** A frame comes from a state with the color flag of the state before. *)
Lemma iteration_frame (w : tty) (self self' : t) (c : control) (fr : frame)
  (sl : list Q) :
  iteration w self = (c, self', Some fr, sl) ->
  color self' = color self /\
  chart fr = draw_graphs self' (fst (maxyx w)) (snd (maxyx w)) (logs w).
Proof.
  intros H. pose proof (iteration_color w self) as Hc. rewrite H in Hc.
  split; [exact Hc|]. unfold iteration in H.
  destruct (getch w =? ord_q)%Z; [discriminate|].
  injection H as _ <- <- _. reflexivity.
Qed.

Lemma plain_markers (self : t) (n i : nat) :
  color self = false ->
  getmarker self n i = "_," \/ getmarker self n i = "_." \/
  getmarker self n i = str i.
Proof.
  intros Hc. unfold getmarker. rewrite Hc.
  destruct (Z.of_nat i =? Z.of_nat n - 1)%Z; [auto|].
  destruct (numerical_markers self); auto.
Qed.

Lemma draw_graphs_markers (self : t) (height width : Z) (l : run_list)
  (fig : figure) (marker : string) (log : list Q) :
  color self = false ->
  draw_graphs self height width l = Some fig ->
  In (marker, log) (series fig) ->
  marker = "_," \/ marker = "_." \/ exists i, marker = str i.
Proof.
  intros Hc Hd Hin. destruct l as [[|r rs]|]; try discriminate.
  unfold draw_graphs, enumerate in Hd.
  pose proof (graphs_loop_series self (List.length (r :: rs)) (r :: rs)
                0 [] (-1.7) (-1.6)) as Hser.
  destruct (fold_left (graphs_step self (List.length (r :: rs)))
                      (enumerate_from 0 (r :: rs)) ([], -1.7, -1.6))
    as [[plotted lo] hi].
  cbn [fst snd app] in Hser. injection Hd as <-. cbn [series] in Hin.
  rewrite Hser in Hin. apply in_map_iff in Hin.
  destruct Hin as ([i log'] & E & _). injection E as <- _. cbn [fst].
  destruct (plain_markers self (List.length (r :: rs)) i Hc) as [H|[H|H]];
    eauto.
Qed.

Lemma loop_color (ws : list tty) :
  forall self,
    color self = false ->
    color (state_of (fst (loop ws self))) = false /\
    forall fr fig marker log,
      In fr (snd (loop ws self)) -> chart fr = Some fig ->
      In (marker, log) (series fig) ->
      marker = "_," \/ marker = "_." \/ exists i, marker = str i.
Proof.
  induction ws as [|w ws IH]; intros self Hc; cbn [loop].
  - split; [exact Hc | intros ? ? ? ? []].
  - set (self1 := if stop w then set_running false self else self).
    assert (Hc1 : color self1 = false)
      by (subst self1; destruct (stop w); exact Hc).
    destruct (running self1); [|split; [exact Hc1 | intros ? ? ? ? []]].
    destruct (iteration w self1) as [[[c s] drawn] sl] eqn:Hit.
    pose proof (iteration_color w self1) as Hcs. rewrite Hit in Hcs.
    cbn [fst snd] in Hcs. rewrite Hc1 in Hcs.
    destruct c; [|split; [exact Hcs | intros ? ? ? ? []]].
    destruct (IH s Hcs) as [Hst Hfr].
    destruct (loop ws s) as [th frames]. cbn [fst snd] in *.
    split; [exact Hst|].
    destruct drawn as [fr0|]; [|exact Hfr].
    intros fr fig marker log [<-|Hin] Hch Hm; [|eauto].
    destruct (iteration_frame w self1 s Continue fr0 sl Hit) as [_ Hchart].
    rewrite Hchart in Hch.
    exact (draw_graphs_markers s _ _ _ fig marker log Hcs Hch Hm).
Qed.

(** X8. The color flag is inert: whatever keys are pressed, [c] included, a
    renderer started by [_main] on a fresh [CURSESDisplay] never sets it, and
    every marker of every chart it draws is the live marker, the finished
    marker or a decimal index; no style code of [Colors] reaches a chart. *)
Theorem color_is_inert :
  forall ws : list tty,
    color (state_of (fst (_main ws init))) = false /\
    forall fr fig marker log,
      In fr (snd (_main ws init)) -> chart fr = Some fig ->
      In (marker, log) (series fig) ->
      marker = "_," \/ marker = "_." \/ exists i, marker = str i.
Proof.
  intros ws. unfold _main. apply loop_color. reflexivity.
Qed.

Lemma color_is_inert_witness :
  "0" = "_," \/ "0" = "_." \/ exists i, "0" = str i.
Proof.
  eapply (proj2 (color_is_inert
                   [mk_tty false ord_c (24, 80)%Z (Some [[-1.0]; [-2.0]])])
            _ _ "0" [-1.0]).
  - left. reflexivity.
  - reflexivity.
  - left. reflexivity.
Defined.

(** *** The statistics of the finished runs *)










End CURSESDisplayLaws.

(** ** The style table *)

Module ColorsLaws.
Import Py Colors.

Lemma styles_index_check :
  forallb (fun style =>
    forallb (fun fg =>
      forallb (fun bg =>
        String.eqb (nth (style * 64 + fg * 8 + bg) styles "")
                   (format style (30 + fg) (40 + bg)))
        (seq 0 8))
      (seq 0 8))
    (seq 0 8) = true.
Proof.
  vm_compute. reflexivity.
Qed.

(** X10. The style table has 512 entries, no two of them equal; the entry at
    position 64 s + 8 f + b, for s, f and b below 8, is the text [s;30+f;40+b]:
    the background varies fastest, the style slowest. *)
Theorem styles_table :
  N = 512%nat /\
  NoDup styles /\
  forall style fg bg : nat,
    (style < 8)%nat -> (fg < 8)%nat -> (bg < 8)%nat ->
    nth (style * 64 + fg * 8 + bg) styles ""
    = (str style ++ ";" ++ str (30 + fg) ++ ";" ++ str (40 + bg))%string.
Proof.
  split; [reflexivity|]. split.
  - assert (E : nodup string_dec styles = styles) by (vm_compute; reflexivity).
    rewrite <- E. apply NoDup_nodup.
  - intros style fg bg Hs Hf Hb.
    pose proof styles_index_check as H.
    rewrite forallb_forall in H. specialize (H style).
    rewrite in_seq, forallb_forall in H. specialize (H ltac:(lia) fg).
    rewrite in_seq, forallb_forall in H. specialize (H ltac:(lia) bg).
    rewrite in_seq in H. specialize (H ltac:(lia)).
    apply String.eqb_eq in H. exact H.
Qed.

Lemma styles_table_witness :
  nth (7 * 64 + 0 * 8 + 5) styles "" = "7;30;45".
Proof.
  exact (proj2 (proj2 styles_table) 7%nat 0%nat 5%nat
           ltac:(repeat constructor) ltac:(repeat constructor)
           ltac:(repeat constructor)).
Defined.

End ColorsLaws.

(** ** The look-up of the stream file and the start-up *)

Module MainLaws.
Import Py Main.











End MainLaws.

(** ** The tailer and the renderer together *)

Module DashboardLaws.
Import Py.






End DashboardLaws.
